(** * Decision-tree processing: a shallow embedding of [decisionTree.ts]

    The development follows the source file top to bottom: the values the
    program receives (parsed JSON), the [Action] classes with their
    [execute] and [toJSON] methods, the [ActionFactory] with its registry,
    and [DecisionTreeService.processDecisionTree].

    The program is dynamically typed: the factories store whatever the wire
    node carries, so the fields of an action are arbitrary values and the
    coercions the JavaScript runtime applies to them (string conversion in
    template literals, property keys, truthiness, numeric comparison) are
    written out. *)

From Stdlib Require Import List String Ascii ZArith QArith Lia Bool.
From Stdlib Require Import DecimalString Qround.
Import ListNotations.

Local Open Scope string_scope.
Set Warnings "-register-all".

(** ** Values *)

(** A JavaScript number.  Finite numbers are kept as rationals.  The loop
    counter of [LoopAction] only takes the values 0, 1, 2, ... up to 2^53 and
    is kept as a [nat]; [increment] is what [i + 1] and [i++] compute on it. *)
Inductive Number : Type :=
| NaN
| PosInfinity
| NegInfinity
| Finite (q : Q).

(** The values a decision tree is made of: what [JSON.parse] or an object
    literal without methods produces, plus [undefined].  An object is the
    list of its own properties. *)
Inductive Value : Type :=
| VUndefined
| VNull
| VBool (b : bool)
| VNum (n : Number)
| VStr (s : string)
| VArr (items : list Value)
| VObj (fields : list (string * Value)).

(** What a [throw] carries. *)
Inductive Exception : Type :=
| Error (message : string)      (* [throw new Error(message)] in the source *)
| TypeError                     (* raised by the runtime itself *)
| Thrown (description : string) (* raised while an expression is evaluated *).

(** How a call ends: it returns or it throws. *)
Inductive Completion (A : Type) : Type :=
| Normal (a : A)
| Throw (e : Exception).
Arguments Normal {A} a.
Arguments Throw {A} e.

Definition bindC {A B : Type} (c : Completion A) (k : A -> Completion B)
  : Completion B :=
  match c with
  | Normal a => k a
  | Throw e => Throw e
  end.

Declare Scope completion_scope.
Delimit Scope completion_scope with completion.
Notation "x <- c ;; k" := (bindC c (fun x => k))
  (at level 61, c at next level, right associativity) : completion_scope.

(** ** The runtime's coercions *)

Definition quote : string := String (ascii_of_nat 34) EmptyString.

(** [Boolean(v)]. *)
Definition ToBoolean (v : Value) : bool :=
  match v with
  | VUndefined | VNull => false
  | VBool b => b
  | VNum NaN => false
  | VNum (Finite q) => negb (Qeq_bool q 0)
  | VNum _ => true
  | VStr s => negb (String.eqb s EmptyString)
  | VArr _ | VObj _ => true
  end.

(** Own-property lookup in an object. *)
Fixpoint own (fields : list (string * Value)) (key : string) : option Value :=
  match fields with
  | [] => None
  | (k, v) :: rest => if String.eqb k key then Some v else own rest key
  end.

Definition hasOwn (fields : list (string * Value)) (key : string) : bool :=
  match own fields key with Some _ => true | None => false end.

(** [v.key] for the data properties the program reads ([type], [params],
    [phone], [sender], [receiver], [expression], [iterations], [trueAction],
    [falseAction], [action], [actions]).  None of these names exists on a
    built-in prototype, so on a primitive or an array the result is
    [undefined]; on [undefined] and [null] the access throws. *)
Definition get (v : Value) (key : string) : Completion Value :=
  match v with
  | VUndefined | VNull => Throw TypeError
  | VObj fields =>
      match own fields key with
      | Some x => Normal x
      | None => Normal VUndefined
      end
  | _ => Normal VUndefined
  end.

Definition is_integer (q : Q) : bool :=
  (Z.rem (Qnum q) (Zpos (Qden q)) =? 0)%Z.

Definition integer_part (q : Q) : Z :=
  (Qnum q / Zpos (Qden q))%Z.

Definition decimal (z : Z) : string :=
  NilZero.string_of_int (Z.to_int z).

(** The parts of the runtime the program calls into and does not define. *)
Class Engine : Type := {
  (** whatever an evaluated expression can read and change *)
  World : Type;
  (** [new Function("context", body)(argument)]: compiles [body] and calls
      it; compilation (a syntax error) or the call may throw.  The call is
      taken to end, and to reach the program only through its result and
      the world *)
  callFunction : string -> Value -> World -> Completion Value * World;
  (** the numeric value of a string, as the comparison [i < s] computes it *)
  StringToNumber : string -> Number;
  (** the digits of a finite number that is not an integer of magnitude
      below 2^53 (those are printed by [decimal]) *)
  OtherNumberToString : Q -> string
}.

Section Runtime.
Context {engine : Engine}.

(** [String(n)] for a number.  An integer of magnitude below 2^53
    (9007199254740992) is printed with all its digits; for the other finite
    numbers the runtime chooses the digits. *)
Definition NumberToString (n : Number) : string :=
  match n with
  | NaN => "NaN"
  | PosInfinity => "Infinity"
  | NegInfinity => "-Infinity"
  | Finite q =>
      if is_integer q && (Z.abs (integer_part q) <? 9007199254740992)%Z
      then decimal (integer_part q)
      else OtherNumberToString q
  end.

Definition join_with (sep : string) : list string -> string :=
  fix go (l : list string) : string :=
    match l with
    | [] => EmptyString
    | [s] => s
    | s :: rest => s ++ sep ++ go rest
    end.

Definition sequenceC {A : Type} : list (Completion A) -> Completion (list A) :=
  fix go (l : list (Completion A)) : Completion (list A) :=
    match l with
    | [] => Normal []
    | c :: rest =>
        (a <- c ;; r <- go rest ;; Normal (a :: r))%completion
    end.

(** [String(v)], the conversion a template literal [`${v}`] and a property
    key [o[v]] apply.  An array is joined with commas, [null] and [undefined]
    elements giving the empty string.  A plain object inherits
    [Object.prototype.toString]; when it has an own property [toString], that
    property is data, not a function, neither it nor [valueOf] yields a
    primitive, and the conversion throws a [TypeError]. *)
Fixpoint ToString (v : Value) : Completion string :=
  match v with
  | VUndefined => Normal "undefined"
  | VNull => Normal "null"
  | VBool true => Normal "true"
  | VBool false => Normal "false"
  | VNum n => Normal (NumberToString n)
  | VStr s => Normal s
  | VArr items =>
      (parts <-
         sequenceC
           (map (fun x =>
                   match x with
                   | VUndefined | VNull => Normal EmptyString
                   | _ => ToString x
                   end) items) ;;
       Normal (join_with "," parts))%completion
  | VObj fields =>
      if hasOwn fields "toString" then Throw TypeError
      else Normal "[object Object]"
  end.

(** [Number(v)], as the comparison [i < v] applies it. *)
Definition ToNumber (v : Value) : Completion Number :=
  match v with
  | VUndefined => Normal NaN
  | VNull => Normal (Finite 0)
  | VBool true => Normal (Finite 1)
  | VBool false => Normal (Finite 0)
  | VNum n => Normal n
  | VStr s => Normal (StringToNumber s)
  | VArr _ => (s <- ToString v ;; Normal (StringToNumber s))%completion
  | VObj fields =>
      if hasOwn fields "toString" then Throw TypeError else Normal NaN
  end.

(** [i + 1] for a counter [i], in the arithmetic of doubles: exact below
    2^53 (9007199254740992), and 2^53 + 1 is rounded to 2^53. *)
Definition increment (i : nat) : nat :=
  if (N.of_nat i <? 9007199254740992)%N then S i else i.

(** [i < n] for a counter [i]. *)
Definition counter_lt (i : nat) (n : Number) : bool :=
  match n with
  | NaN => false
  | PosInfinity => true
  | NegInfinity => false
  | Finite q => negb (Qle_bool q (inject_Z (Z.of_nat i)))
  end.

End Runtime.

(** ** Actions *)

(** The classes implementing the [Action] interface.  The constructors store
    their arguments as they are; the declared parameter types ([string],
    [number]) are erased at run time and the factories pass fields of the
    wire node, so a field can be any value.  [falseAction] is optional.

    [NotAnAction v] is a value without [execute] and [toJSON] methods sitting
    where an [Action] is expected; [createAction] can return one (see
    [registryGet]). *)
Inductive Action : Type :=
| SendSmsAction (phone : Value)
| SendEmailAction (sender receiver : Value)
| ConditionAction (expression : Value) (trueAction : Action)
                  (falseAction : option Action)
| LoopAction (iterations : Value) (action : Action)
| SequenceAction (actions : list Action)
| NotAnAction (v : Value).

(** Truthiness of a value held in a field of type [Action]. *)
Definition truthy (a : Action) : bool :=
  match a with
  | NotAnAction v => ToBoolean v
  | _ => true
  end.

(** [l.map(f)] where [f] may throw: elements are visited left to right and
    the first exception ends the traversal. *)
Definition mapC {A B : Type} (f : A -> Completion B)
  : list A -> Completion (list B) :=
  fix go (l : list A) : Completion (list B) :=
    match l with
    | [] => Normal []
    | x :: rest =>
        (b <- f x ;; r <- go rest ;; Normal (b :: r))%completion
    end.

(** The trees built from the five classes only. *)
Fixpoint standard (a : Action) : bool :=
  match a with
  | SendSmsAction _ | SendEmailAction _ _ => true
  | ConditionAction _ t f =>
      standard t && match f with Some fa => standard fa | None => true end
  | LoopAction _ body => standard body
  | SequenceAction actions => forallb standard actions
  | NotAnAction _ => false
  end.

Section Serialization.
Local Open Scope completion_scope.

(** [toJSON()] of each class; on a value that has no such method the call
    throws. *)
Fixpoint toJSON (a : Action) : Completion Value :=
  match a with
  | SendSmsAction phone =>
      Normal (VObj [("type", VStr "send_sms");
                    ("params", VObj [("phone", phone)])])
  | SendEmailAction sender receiver =>
      Normal (VObj [("type", VStr "send_email");
                    ("params", VObj [("sender", sender);
                                     ("receiver", receiver)])])
  | ConditionAction expression trueAction falseAction =>
      t <- toJSON trueAction ;;
      f <- match falseAction with
                | Some fa => if truthy fa then toJSON fa else Normal VUndefined
                | None => Normal VUndefined
                end ;;
      Normal (VObj [("type", VStr "condition");
                    ("params", VObj [("expression", expression)]);
                    ("trueAction", t);
                    ("falseAction", f)])
  | LoopAction iterations action =>
      body <- toJSON action ;;
      Normal (VObj [("type", VStr "loop");
                    ("params", VObj [("iterations", iterations)]);
                    ("action", body)])
  | SequenceAction actions =>
      items <- mapC toJSON actions ;;
      Normal (VObj [("type", VStr "sequence"); ("actions", VArr items)])
  | NotAnAction _ => Throw TypeError
  end.

End Serialization.

(** ** ActionFactory *)

Definition Factory : Type := Value -> Completion Action.

(** The registry: the factories installed by [ActionFactory.register], the
    latest registration first. *)
Definition Registry : Type := list (string * Factory).

(** [ActionFactory.register(type, factory)]: [registry[type] = factory]. *)
Definition register (type : string) (factory : Factory) (registry : Registry)
  : Registry :=
  (type, factory) :: registry.

Fixpoint registered (registry : Registry) (key : string) : option Factory :=
  match registry with
  | [] => None
  | (k, factory) :: rest =>
      if String.eqb k key then Some factory else registered rest key
  end.

(** What [ActionFactory.registry[key]] evaluates to.  The registry is created
    as the object literal [{}], so a key that was never registered is looked
    up on [Object.prototype]. *)
Inductive Member : Type :=
| Registered (factory : Factory) (* an own property, set by [register] *)
| ObjectConstructor              (* [constructor], the function [Object] *)
| ObjectToString                 (* [Object.prototype.toString] *)
| ObjectMethod                   (* another method of [Object.prototype] *)
| ObjectPrototype                (* [__proto__]: an object, not a function *)
| Missing                        (* [undefined] *).

Definition object_methods : list string :=
  ["hasOwnProperty"; "isPrototypeOf"; "propertyIsEnumerable";
   "toLocaleString"; "valueOf"; "__defineGetter__"; "__defineSetter__";
   "__lookupGetter__"; "__lookupSetter__"].

Definition registryGet (registry : Registry) (key : string) : Member :=
  match registered registry key with
  | Some factory => Registered factory
  | None =>
      if String.eqb key "constructor" then ObjectConstructor
      else if String.eqb key "toString" then ObjectToString
      else if String.eqb key "__proto__" then ObjectPrototype
      else if existsb (String.eqb key) object_methods then ObjectMethod
      else Missing
  end.

(** [!factory]. *)
Definition is_missing (m : Member) : bool :=
  match m with Missing => true | _ => false end.

(** [factory(json)], a plain call ([this] is [undefined]).  [Object(json)]
    returns the object [json] itself; [Object.prototype.toString] answers for
    [undefined]; the other methods of [Object.prototype] convert [this] to an
    object first and throw; an object is not callable. *)
Definition call (m : Member) (json : Value) : Completion Action :=
  match m with
  | Registered factory => factory json
  | ObjectConstructor => Normal (NotAnAction json)
  | ObjectToString => Normal (NotAnAction (VStr "[object Undefined]"))
  | ObjectMethod | ObjectPrototype | Missing => Throw TypeError
  end.

Definition invalid_json : Exception :=
  Error "Invalid JSON: missing type property.".

Definition unknown_action_type (type : string) : Exception :=
  Error ("Unknown action type: " ++ type).

Section Factory.
Context {engine : Engine}.
Local Open Scope completion_scope.

(** The factories registered by the module.  They call
    [ActionFactory.createAction] for the child nodes; it is a parameter here
    and the knot is tied by [createAction] below. *)
Section Factories.
Variable createAction : Value -> Completion Action.

Definition send_sms_factory : Factory := fun json =>
  params <- get json "params" ;;
  phone <- get params "phone" ;;
  Normal (SendSmsAction phone).

Definition send_email_factory : Factory := fun json =>
  params <- get json "params" ;;
  sender <- get params "sender" ;;
  params' <- get json "params" ;;
  receiver <- get params' "receiver" ;;
  Normal (SendEmailAction sender receiver).

Definition condition_factory : Factory := fun json =>
  params <- get json "params" ;;
  expression <- get params "expression" ;;
  trueJson <- get json "trueAction" ;;
  trueAction <- createAction trueJson ;;
  falseJson <- get json "falseAction" ;;
  falseAction <- (if ToBoolean falseJson
                  then a <- createAction falseJson ;; Normal (Some a)
                  else Normal None) ;;
  Normal (ConditionAction expression trueAction falseAction).

Definition loop_factory : Factory := fun json =>
  params <- get json "params" ;;
  iterations <- get params "iterations" ;;
  actionJson <- get json "action" ;;
  action <- createAction actionJson ;;
  Normal (LoopAction iterations action).

(** [json.actions.map(...)]: only an array has a [map] method. *)
Definition sequence_factory : Factory := fun json =>
  actionsJson <- get json "actions" ;;
  match actionsJson with
  | VArr items =>
      actions <- mapC createAction items ;;
      Normal (SequenceAction actions)
  | _ => Throw TypeError
  end.

(** The registry once the module is loaded. *)
Definition registry : Registry :=
  register "sequence" sequence_factory
    (register "loop" loop_factory
       (register "condition" condition_factory
          (register "send_email" send_email_factory
             (register "send_sms" send_sms_factory [])))).

(** The body of [ActionFactory.createAction]. *)
Definition createAction_body (json : Value) : Completion Action :=
  if negb (ToBoolean json) then Throw invalid_json
  else
    type <- get json "type" ;;
    if negb (ToBoolean type) then Throw invalid_json
    else
      key <- ToString type ;;
      let factory := registryGet registry key in
      if is_missing factory then Throw (unknown_action_type key)
      else call factory json.

End Factories.

(** [f(fields[key])] computed along the list of properties, [absent] standing
    for [f(undefined)]: the shape under which the recursion of [createAction]
    is structural. *)
Definition at_prop {A : Type} (f : Value -> A) (absent : A)
  : list (string * Value) -> string -> A :=
  fix go (fields : list (string * Value)) (key : string) : A :=
    match fields with
    | [] => absent
    | (k, v) :: rest => if String.eqb k key then f v else go rest key
    end.

(** [ActionFactory.createAction], by recursion on the node.  Lemma
    [createAction_unfold] shows that it satisfies the equation of the source,
    [createAction = createAction_body createAction]. *)
Fixpoint createAction (json : Value) : Completion Action :=
  match json with
  | VObj fields =>
      type <- get json "type" ;;
      if negb (ToBoolean type) then Throw invalid_json
      else
        key <- ToString type ;;
        if String.eqb "sequence" key then
          at_prop
            (fun actionsJson =>
               match actionsJson with
               | VArr items =>
                   actions <- mapC createAction items ;;
                   Normal (SequenceAction actions)
               | _ => Throw TypeError
               end)
            (Throw TypeError) fields "actions"
        else if String.eqb "loop" key then
          params <- get json "params" ;;
          iterations <- get params "iterations" ;;
          action <- at_prop createAction (Throw invalid_json) fields "action" ;;
          Normal (LoopAction iterations action)
        else if String.eqb "condition" key then
          params <- get json "params" ;;
          expression <- get params "expression" ;;
          trueAction <-
            at_prop createAction (Throw invalid_json) fields "trueAction" ;;
          falseAction <-
            at_prop
              (fun falseJson =>
                 if ToBoolean falseJson
                 then a <- createAction falseJson ;; Normal (Some a)
                 else Normal None)
              (Normal None) fields "falseAction" ;;
          Normal (ConditionAction expression trueAction falseAction)
        else if String.eqb "send_email" key then send_email_factory json
        else if String.eqb "send_sms" key then send_sms_factory json
        else
          let factory := registryGet [] key in
          if is_missing factory then Throw (unknown_action_type key)
          else call factory json
  | _ => Throw invalid_json
  end.

End Factory.

(** ** Execution *)

(** What the program writes to the console. *)
Inductive Output : Type :=
| Log (line : string)                         (* [console.log(line)] *)
| LogError (label : string) (err : Exception) (* [console.error(label, err)] *).

Section Execution.
Context {engine : Engine}.

(** The state a run works on: the console, oldest line first, and what the
    evaluated expressions can reach. *)
Record State : Type := mkState {
  console : list Output;
  world : World
}.

(** A method that has effects.  The result is [None] when the recursion
    budget of the model is used up before the method ends (a loop that has no
    end uses up every budget); otherwise it is the completion and the state
    left behind. *)
Definition Exec (A : Type) : Type := State -> option (Completion A * State).

Definition ret {A : Type} (a : A) : Exec A :=
  fun s => Some (Normal a, s).

Definition throw {A : Type} (e : Exception) : Exec A :=
  fun s => Some (Throw e, s).

Definition out_of_fuel {A : Type} : Exec A :=
  fun _ => None.

Definition bind {A B : Type} (c : Exec A) (k : A -> Exec B) : Exec B :=
  fun s =>
    match c s with
    | Some (Normal a, s') => k a s'
    | Some (Throw e, s') => Some (Throw e, s')
    | None => None
    end.

(** A pure computation that may throw. *)
Definition lift {A : Type} (c : Completion A) : Exec A :=
  match c with
  | Normal a => ret a
  | Throw e => throw e
  end.

(** [try { body } catch (err) { handler(err) }]. *)
Definition try_catch {A : Type} (body : Exec A) (handler : Exception -> Exec A)
  : Exec A :=
  fun s =>
    match body s with
    | Some (Throw e, s') => handler e s'
    | r => r
    end.

Definition console_log (line : string) : Exec unit :=
  fun s => Some (Normal tt, mkState (console s ++ [Log line]) (world s)).

Definition console_error (label : string) (err : Exception) : Exec unit :=
  fun s => Some (Normal tt, mkState (console s ++ [LogError label err]) (world s)).

(** [new Function("context", body)(argument)]. *)
Definition call_new_Function (body : string) (argument : Value) : Exec Value :=
  fun s =>
    let (r, w) := callFunction body argument (world s) in
    Some (r, mkState (console s) w).

End Execution.

Declare Scope exec_scope.
Delimit Scope exec_scope with exec.
Notation "x <- c ;; k" := (bind c (fun x => k))
  (at level 61, c at next level, right associativity) : exec_scope.
Notation "c ;; k" := (bind c (fun _ => k))
  (at level 61, right associativity) : exec_scope.

Section Execute.
Context {engine : Engine}.
Local Open Scope exec_scope.

(** [for (const x of l) body(x)]. *)
Definition for_of {A : Type} (body : A -> Exec unit) : list A -> Exec unit :=
  fix go (l : list A) : Exec unit :=
    match l with
    | [] => ret tt
    | x :: rest => body x ;; go rest
    end.

(** [for (let i = start; i < bound; i++) body(i)].  The bound is converted to
    a number at every test. *)
Fixpoint for_lt (fuel : nat) (bound : Value) (body : nat -> Exec unit)
  (i : nat) : Exec unit :=
  match fuel with
  | O => out_of_fuel
  | S fuel' =>
      n <- lift (ToNumber bound) ;;
      if counter_lt i n
      then body i ;; for_lt fuel' bound body (increment i)
      else ret tt
  end.

(** [context || {}]. *)
Definition or_empty (context : Value) : Value :=
  if ToBoolean context then context else VObj [].

Definition string_of_bool (b : bool) : string :=
  if b then "true" else "false".

Definition of_nat (n : nat) : Number := Finite (inject_Z (Z.of_nat n)).

(** The [execute] methods.  [fuel] bounds the depth of the calls and the
    number of loop tests. *)
Fixpoint execute (fuel : nat) (a : Action) (context : Value) : Exec unit :=
  match fuel with
  | O => out_of_fuel
  | S fuel' =>
      match a with
      | SendSmsAction phone =>
          p <- lift (ToString phone) ;;
          console_log ("SendSmsAction: Sending SMS to " ++ p)
      | SendEmailAction sender receiver =>
          s <- lift (ToString sender) ;;
          r <- lift (ToString receiver) ;;
          console_log ("SendEmailAction: Sending email from " ++ s
                       ++ " to " ++ r)
      | ConditionAction expression trueAction falseAction =>
          result <-
            try_catch
              (e <- lift (ToString expression) ;;
               v <- call_new_Function
                      ("with(context) { return (" ++ e ++ "); }")
                      (or_empty context) ;;
               ret (ToBoolean v))
              (fun err =>
                 console_error "Error evaluating condition:" err ;;
                 ret false) ;;
          e <- lift (ToString expression) ;;
          console_log ("ConditionAction: Expression " ++ quote ++ e ++ quote
                       ++ " evaluated to " ++ string_of_bool result) ;;
          if result then execute fuel' trueAction context
          else
            match falseAction with
            | Some fa =>
                if truthy fa then execute fuel' fa context else ret tt
            | None => ret tt
            end
      | LoopAction iterations action =>
          n <- lift (ToString iterations) ;;
          console_log ("LoopAction: Starting loop for " ++ n
                       ++ " iterations.") ;;
          for_lt fuel' iterations
            (fun i =>
               console_log ("LoopAction: Iteration "
                            ++ NumberToString (of_nat (increment i))) ;;
               execute fuel' action context)
            0
      | SequenceAction actions =>
          console_log ("SequenceAction: Executing "
                       ++ NumberToString (of_nat (List.length actions))
                       ++ " actions in sequence.") ;;
          for_of (fun action => execute fuel' action context) actions
      | NotAnAction _ => throw TypeError
      end
  end.

(** ** DecisionTreeService *)

(** [DecisionTreeService.processDecisionTree(json, context)]. *)
Definition processDecisionTree (fuel : nat) (json : Value) (context : Value)
  : Exec unit :=
  try_catch
    (action <- lift (createAction json) ;;
     execute fuel action context)
    (fun err => console_error "Error processing decision tree:" err).

End Execute.

(** ** A sample engine and sample trees

    A small stand-in for the JavaScript engine, to run the definitions on
    concrete inputs: it knows three expressions, takes every other one to be
    a syntax error, and its world counts the
    functions it was asked to call. *)

Definition number (z : Z) : Value := VNum (Finite (inject_Z z)).

Definition sample_body (expression : string) : string :=
  "with(context) { return (" ++ expression ++ "); }".

Definition sample_callFunction (body : string) (argument : Value) (w : nat)
  : Completion Value * nat :=
  if String.eqb body (sample_body "true") then (Normal (VBool true), S w)
  else if String.eqb body (sample_body "false") then (Normal (VBool false), S w)
  else if String.eqb body (sample_body "date === '1.1.2025'") then
    match get argument "date" with
    | Normal (VStr d) => (Normal (VBool (String.eqb d "1.1.2025")), S w)
    | _ => (Normal (VBool false), S w)
    end
  else (Throw (Thrown "SyntaxError"), S w).

Definition sample_engine : Engine := {|
  World := nat;
  callFunction := sample_callFunction;
  StringToNumber := fun _ => NaN;
  OtherNumberToString := fun q => if Qeq_bool q (5 # 2) then "2.5" else "(digits)"
|}.

Definition start : @State sample_engine := @mkState sample_engine [] 0%nat.

Definition sms (phone : string) : Value :=
  VObj [("type", VStr "send_sms"); ("params", VObj [("phone", VStr phone)])].

(** [christmasDecisionTree] of the source. *)
Definition christmasDecisionTree : Value :=
  VObj [("type", VStr "condition");
        ("params", VObj [("expression", VStr "date === '1.1.2025'")]);
        ("trueAction", sms "1234567890");
        ("falseAction", VObj [("type", VStr "sequence"); ("actions", VArr [])])].

(** [emailAndSmsTree] of the source. *)
Definition emailAndSmsTree : Value :=
  VObj [("type", VStr "sequence");
        ("actions",
         VArr [VObj [("type", VStr "send_email");
                     ("params", VObj [("sender", VStr "a@example.com");
                                      ("receiver", VStr "b@example.com")])];
               sms "1234567890";
               VObj [("type", VStr "send_email");
                     ("params", VObj [("sender", VStr "a@example.com");
                                      ("receiver", VStr "c@example.com")])]])].

Definition loop_node (iterations action : Value) : Value :=
  VObj [("type", VStr "loop");
        ("params", VObj [("iterations", iterations)]);
        ("action", action)].

(** [optionalMailsTree] of the source. *)
Definition optionalMailsTree : Value :=
  loop_node (number 10)
    (VObj [("type", VStr "condition");
           ("params", VObj [("expression", VStr "Math.random() > 0.5")]);
           ("trueAction", sms "1234567890");
           ("falseAction",
            VObj [("type", VStr "sequence"); ("actions", VArr [])])]).

(** A value that cannot be converted to a string: the parsed JSON text
    [{"toString": 1}]. *)
Definition unprintable : Value := VObj [("toString", number 1)].

(** Three steps, the second of which throws. *)
Definition sample_steps : list Action :=
  [SendSmsAction (VStr "1"); SendSmsAction unprintable;
   SendSmsAction (VStr "3")].

(** The properties of a loop node whose count is a string. *)
Definition sample_loop_fields : list (string * Value) :=
  [("type", VStr "loop");
   ("params", VObj [("iterations", VStr "many")]);
   ("action", sms "1")].

(** A tree using the five classes. *)
Definition sample_tree : Action :=
  ConditionAction (VStr "date === '1.1.2025'")
    (LoopAction (number 2)
       (SequenceAction [SendSmsAction (VStr "1234567890");
                        SendEmailAction (VStr "a@example.com")
                                        (VStr "b@example.com")]))
    (Some (ConditionAction (VStr "false") (SequenceAction []) None)).

(** Induction over action trees, with the hypothesis available for every
    child: the branches of a condition, the body of a loop and the steps of a
    sequence. *)
Section ActionInduction.
Variable P : Action -> Prop.
Hypothesis P_sms : forall phone, P (SendSmsAction phone).
Hypothesis P_email : forall sender receiver, P (SendEmailAction sender receiver).
Hypothesis P_condition : forall expression t f,
  P t -> (forall fa, f = Some fa -> P fa) -> P (ConditionAction expression t f).
Hypothesis P_loop : forall iterations body,
  P body -> P (LoopAction iterations body).
Hypothesis P_sequence : forall actions,
  Forall P actions -> P (SequenceAction actions).
Hypothesis P_other : forall v, P (NotAnAction v).

Fixpoint Action_tree_ind (a : Action) : P a :=
  match a with
  | SendSmsAction phone => P_sms phone
  | SendEmailAction sender receiver => P_email sender receiver
  | ConditionAction expression t f =>
      P_condition expression t f (Action_tree_ind t)
        (match f return forall fa, f = Some fa -> P fa with
         | Some fa' => fun fa H =>
             match H in _ = o
                   return match o with Some x => P x | None => True end
             with eq_refl => Action_tree_ind fa' end
         | None => fun fa H =>
             match H in _ = o
                   return match o with Some x => P x | None => True end
             with eq_refl => I end
         end)
  | LoopAction iterations body => P_loop iterations body (Action_tree_ind body)
  | SequenceAction actions =>
      P_sequence actions
        ((fix steps (l : list Action) : Forall P l :=
            match l with
            | [] => Forall_nil P
            | x :: rest => Forall_cons x (Action_tree_ind x) (steps rest)
            end) actions)
  | NotAnAction v => P_other v
  end.

End ActionInduction.

(** ** Vocabulary of the statements *)

Section Vocabulary.
Context {engine : Engine}.
Local Open Scope exec_scope.

(** [body i0; body (i0 + 1); ...]: [n] calls one after the other, the call
    numbers ascending; like every statement sequence it stops at the first
    call that throws. *)
Fixpoint times (n : nat) (body : nat -> Exec unit) (i : nat) : Exec unit :=
  match n with
  | O => ret tt
  | S n' => body i ;; times n' body (S i)
  end.

(** A number that is zero or negative. *)
Definition zero_or_negative (n : Number) : Prop :=
  match n with
  | NegInfinity => True
  | Finite q => q <= 0
  | NaN | PosInfinity => False
  end.

(** [runs_in_order fuel context steps s s']: starting in state [s], every
    action of [steps] executes and returns, each one starting in the state
    its predecessor left, and the last one leaves [s']. *)
Inductive runs_in_order (fuel : nat) (context : Value)
  : list Action -> State -> State -> Prop :=
| runs_none (s : State) : runs_in_order fuel context [] s s
| runs_step (a : Action) (rest : list Action) (s s' s'' : State) :
    execute fuel a context s = Some (Normal tt, s') ->
    runs_in_order fuel context rest s' s'' ->
    runs_in_order fuel context (a :: rest) s s''.

(** The state after [console.log(line)] and after [console.error(label, err)]. *)
Definition logged (s : State) (line : string) : State :=
  mkState (console s ++ [Log line]) (world s).

Definition logged_error (s : State) (label : string) (err : Exception) : State :=
  mkState (console s ++ [LogError label err]) (world s).

End Vocabulary.

(** ** The endpoint of [server.ts] *)

(** What the handler sends: [res.json({ status: "success" })], with the
    default status 200, or [res.status(400).json({ status: "error", message:
    error.message })], kept here with the error it reports. *)
Inductive Response : Type :=
| Success200
| Error400 (error : Exception).

Section Server.
Context {engine : Engine}.
Local Open Scope exec_scope.

(** The handler of [POST /process-decision-tree], as a function of
    [req.body].  Destructuring [undefined] or [null] throws; on any other
    value a property that is not there reads as [undefined]. *)
Definition post_process_decision_tree (fuel : nat) (body : Value)
  : Exec Response :=
  try_catch
    (decisionTree <- lift (get body "decisionTree") ;;
     context <- lift (get body "context") ;;
     processDecisionTree fuel decisionTree context ;;
     ret Success200)
    (fun error => ret (Error400 error)).

End Server.

(** ** Trees that execute without an error *)

Section WellFormed.
Context {engine : Engine}.

(** The value has a string form: a template literal accepts it. *)
Definition has_string_form (v : Value) : bool :=
  match ToString v with
  | Normal _ => true
  | Throw _ => false
  end.

(** The trees built from the five classes all of whose fields have a string
    form; this holds in particular when the fields have their declared types
    (strings and a number). *)
Fixpoint printable (a : Action) : bool :=
  match a with
  | SendSmsAction phone => has_string_form phone
  | SendEmailAction sender receiver =>
      has_string_form sender && has_string_form receiver
  | ConditionAction expression t f =>
      has_string_form expression && printable t
      && match f with Some fa => printable fa | None => true end
  | LoopAction iterations body => has_string_form iterations && printable body
  | SequenceAction actions => forallb printable actions
  | NotAnAction _ => false
  end.

(** The number of counter values [0, 1, 2, ...] below a bound, [None] when
    every value the counter takes is below it: the counter stops growing at
    2^53 (9007199254740992), so this is the case of [Infinity] and of every
    finite bound above 2^53. *)
Definition call_count (bound : Number) : option nat :=
  match bound with
  | NaN | NegInfinity => Some 0%nat
  | PosInfinity => None
  | Finite q =>
      if (Qceiling q <=? 9007199254740992)%Z
      then Some (Z.to_nat (Qceiling q))
      else None
  end.

(** The number of iterations of a loop whose count is [iterations]. *)
Definition loop_calls (iterations : Value) : option nat :=
  match ToNumber iterations with
  | Normal bound => call_count bound
  | Throw _ => None
  end.

(** Every loop of the tree has an end. *)
Fixpoint finite_loops (a : Action) : bool :=
  match a with
  | ConditionAction _ t f =>
      finite_loops t
      && match f with Some fa => finite_loops fa | None => true end
  | LoopAction iterations body =>
      match loop_calls iterations with Some _ => true | None => false end
      && finite_loops body
  | SequenceAction actions => forallb finite_loops actions
  | _ => true
  end.

(** A recursion budget that is enough to execute the tree. *)
Fixpoint budget (a : Action) : nat :=
  match a with
  | ConditionAction _ t f =>
      S (Nat.max (budget t)
                 (match f with Some fa => budget fa | None => O end))
  | LoopAction iterations body =>
      S (Nat.max (S (match loop_calls iterations with
                     | Some n => n
                     | None => O
                     end))
                 (budget body))
  | SequenceAction actions => S (list_max (map budget actions))
  | _ => 1%nat
  end.

(** The tree holds no [ConditionAction]. *)
Fixpoint condition_free (a : Action) : bool :=
  match a with
  | SendSmsAction _ | SendEmailAction _ _ | NotAnAction _ => true
  | ConditionAction _ _ _ => false
  | LoopAction _ body => condition_free body
  | SequenceAction actions => forallb condition_free actions
  end.

(** Every value of the tree that is not an action is truthy. *)
Fixpoint proper (a : Action) : bool :=
  match a with
  | SendSmsAction _ | SendEmailAction _ _ => true
  | ConditionAction _ t f =>
      proper t && match f with Some fa => proper fa | None => true end
  | LoopAction _ body => proper body
  | SequenceAction actions => forallb proper actions
  | NotAnAction v => ToBoolean v
  end.

End WellFormed.

(** Induction over values, with the hypothesis available for the items of an
    array and the property values of an object. *)
Section ValueInduction.
Variable P : Value -> Prop.
Hypothesis P_undefined : P VUndefined.
Hypothesis P_null : P VNull.
Hypothesis P_bool : forall b, P (VBool b).
Hypothesis P_num : forall n, P (VNum n).
Hypothesis P_str : forall s, P (VStr s).
Hypothesis P_arr : forall items, Forall P items -> P (VArr items).
Hypothesis P_obj : forall fields,
  Forall (fun kv => P (snd kv)) fields -> P (VObj fields).

Fixpoint Value_tree_ind (v : Value) : P v :=
  match v with
  | VUndefined => P_undefined
  | VNull => P_null
  | VBool b => P_bool b
  | VNum n => P_num n
  | VStr s => P_str s
  | VArr items =>
      P_arr items
        ((fix each (l : list Value) : Forall P l :=
            match l with
            | [] => Forall_nil P
            | x :: rest => Forall_cons x (Value_tree_ind x) (each rest)
            end) items)
  | VObj fields =>
      P_obj fields
        ((fix each (l : list (string * Value))
            : Forall (fun kv => P (snd kv)) l :=
            match l with
            | [] => Forall_nil _
            | (k, x) :: rest =>
                Forall_cons (k, x) (Value_tree_ind x) (each rest)
            end) fields)
  end.

End ValueInduction.

(** * Properties *)

(** Case analysis on the property lookups and calls a goal is stuck on. *)
Ltac case_step :=
  match goal with
  | |- context [own ?f ?k] => destruct (own f k)
  | |- context [bindC (get ?p ?k) _] => destruct (get p k)
  | |- context [bindC (createAction ?v) _] => destruct (createAction v)
  | |- context [if ToBoolean ?v then _ else _] => destruct (ToBoolean v)
  end; simpl.

Ltac solve_by_cases := repeat (try reflexivity; case_step).

Section FactoryFacts.
Context {engine : Engine}.
Local Open Scope completion_scope.
Local Arguments String.eqb : simpl never.

Lemma at_prop_own {A : Type} (f : Value -> A) (absent : A) fields key :
  at_prop f absent fields key =
  match own fields key with
  | Some v => f v
  | None => absent
  end.
Proof.
  induction fields as [|[k v] rest IH]; simpl.
  - reflexivity.
  - destruct (String.eqb k key); [reflexivity | exact IH].
Qed.

Lemma createAction_undefined : createAction VUndefined = Throw invalid_json.
Proof. reflexivity. Qed.

(** [createAction] satisfies the equation that defines it in the source. *)
Lemma createAction_unfold (json : Value) :
  createAction json = createAction_body createAction json.
Proof.
  unfold createAction_body.
  destruct json as [| |b|n|s|items|fields];
    try reflexivity;
    try (simpl createAction; destruct (negb (ToBoolean _)); reflexivity).
  change (negb (ToBoolean (VObj fields))) with false.
  cbv iota.
  change (createAction (VObj fields)) with
    (type <- get (VObj fields) "type" ;;
     if negb (ToBoolean type) then Throw invalid_json
     else
       key <- ToString type ;;
       if String.eqb "sequence" key then
         at_prop
           (fun actionsJson =>
              match actionsJson with
              | VArr items =>
                  actions <- mapC createAction items ;;
                  Normal (SequenceAction actions)
              | _ => Throw TypeError
              end)
           (Throw TypeError) fields "actions"
       else if String.eqb "loop" key then
         params <- get (VObj fields) "params" ;;
         iterations <- get params "iterations" ;;
         action <- at_prop createAction (Throw invalid_json) fields "action" ;;
         Normal (LoopAction iterations action)
       else if String.eqb "condition" key then
         params <- get (VObj fields) "params" ;;
         expression <- get params "expression" ;;
         trueAction <-
           at_prop createAction (Throw invalid_json) fields "trueAction" ;;
         falseAction <-
           at_prop
             (fun falseJson =>
                if ToBoolean falseJson
                then a <- createAction falseJson ;; Normal (Some a)
                else Normal None)
             (Normal None) fields "falseAction" ;;
         Normal (ConditionAction expression trueAction falseAction)
       else if String.eqb "send_email" key then send_email_factory (VObj fields)
       else if String.eqb "send_sms" key then send_sms_factory (VObj fields)
       else
         let factory := registryGet [] key in
         if is_missing factory then Throw (unknown_action_type key)
         else call factory (VObj fields)).
  destruct (get (VObj fields) "type") as [type|e]; [|reflexivity].
  simpl bindC.
  destruct (negb (ToBoolean type)); [reflexivity|].
  destruct (ToString type) as [key|e]; [|reflexivity].
  simpl bindC.
  unfold registryGet, registry, register; simpl registered.
  rewrite !at_prop_own.
  destruct (String.eqb "sequence" key).
  { simpl. unfold sequence_factory. simpl.
    destruct (own fields "actions") as [[| | | | |items|]|]; reflexivity. }
  destruct (String.eqb "loop" key).
  { simpl. unfold loop_factory. simpl. solve_by_cases. }
  destruct (String.eqb "condition" key).
  { simpl. unfold condition_factory. simpl. solve_by_cases. }
  destruct (String.eqb "send_email" key); [reflexivity|].
  destruct (String.eqb "send_sms" key); reflexivity.
Qed.

(** ** Round trip *)

Lemma createAction_condition_node expression trueJson falseJson :
  createAction
    (VObj [("type", VStr "condition");
           ("params", VObj [("expression", expression)]);
           ("trueAction", trueJson);
           ("falseAction", falseJson)]) =
  (trueAction <- createAction trueJson ;;
   falseAction <- (if ToBoolean falseJson
                   then a <- createAction falseJson ;; Normal (Some a)
                   else Normal None) ;;
   Normal (ConditionAction expression trueAction falseAction)).
Proof. reflexivity. Qed.

Lemma createAction_loop_node iterations actionJson :
  createAction
    (VObj [("type", VStr "loop");
           ("params", VObj [("iterations", iterations)]);
           ("action", actionJson)]) =
  (action <- createAction actionJson ;; Normal (LoopAction iterations action)).
Proof. reflexivity. Qed.

Lemma createAction_sequence_node items :
  createAction (VObj [("type", VStr "sequence"); ("actions", VArr items)]) =
  (actions <- mapC createAction items ;; Normal (SequenceAction actions)).
Proof. reflexivity. Qed.

(** Every serialized action is an object, hence truthy. *)
Lemma toJSON_truthy a json : toJSON a = Normal json -> ToBoolean json = true.
Proof.
  destruct a as [phone|sender receiver|expression t f|iterations body|actions|v];
    simpl; intros H.
  - inversion H; reflexivity.
  - inversion H; reflexivity.
  - destruct (toJSON t); [|discriminate].
    destruct f as [fa|]; simpl in H.
    + destruct (if truthy fa then toJSON fa else Normal VUndefined);
        [|discriminate].
      inversion H; reflexivity.
    + inversion H; reflexivity.
  - destruct (toJSON body); [|discriminate]. inversion H; reflexivity.
  - destruct (mapC toJSON actions); [|discriminate]. inversion H; reflexivity.
  - discriminate.
Qed.

Lemma standard_truthy a : standard a = true -> truthy a = true.
Proof. destruct a; simpl; intros H; [reflexivity .. | discriminate]. Qed.

(** The steps of a sequence, given the round trip of each step. *)
Lemma mapC_roundtrip actions :
  Forall (fun a => standard a = true ->
                   exists json, toJSON a = Normal json /\
                                createAction json = Normal a) actions ->
  forallb standard actions = true ->
  exists items, mapC toJSON actions = Normal items /\
                mapC createAction items = Normal actions.
Proof.
  induction 1 as [|a rest Ha _ IH]; simpl; intros Hstd.
  - exists []. split; reflexivity.
  - apply andb_true_iff in Hstd. destruct Hstd as [Hstd_a Hstd_rest].
    destruct (Ha Hstd_a) as (json & Hjson & Hcreate).
    destruct (IH Hstd_rest) as (items & Hitems & Hcreates).
    exists (json :: items). simpl.
    rewrite Hjson, Hitems, Hcreate, Hcreates. split; reflexivity.
Qed.

(** Deserializing the serialization of a tree gives the tree back. *)
Lemma createAction_toJSON a :
  standard a = true ->
  exists json, toJSON a = Normal json /\ createAction json = Normal a.
Proof.
  induction a as [phone|sender receiver|expression t f IHt IHf
                 |iterations body IH|actions IH|v] using Action_tree_ind;
    intros Hstd.
  - eexists. split; reflexivity.
  - eexists. split; reflexivity.
  - simpl in Hstd. apply andb_true_iff in Hstd. destruct Hstd as [Hstd_t Hstd_f].
    destruct (IHt Hstd_t) as (trueJson & HtrueJson & HtrueAction).
    destruct f as [fa|].
    + destruct (IHf fa eq_refl Hstd_f) as (falseJson & HfalseJson & HfalseAction).
      eexists. split.
      * simpl. rewrite HtrueJson. simpl.
        rewrite (standard_truthy fa Hstd_f), HfalseJson. reflexivity.
      * rewrite createAction_condition_node, HtrueAction.
        rewrite (toJSON_truthy fa falseJson HfalseJson), HfalseAction.
        reflexivity.
    + eexists. split.
      * simpl. rewrite HtrueJson. reflexivity.
      * rewrite createAction_condition_node, HtrueAction. reflexivity.
  - simpl in Hstd. destruct (IH Hstd) as (json & Hjson & Haction).
    eexists. split.
    + simpl. rewrite Hjson. reflexivity.
    + rewrite createAction_loop_node, Haction. reflexivity.
  - simpl in Hstd. destruct (mapC_roundtrip actions IH Hstd)
      as (items & Hitems & Hactions).
    eexists. split.
    + simpl. rewrite Hitems. reflexivity.
    + rewrite createAction_sequence_node, Hactions. reflexivity.
  - discriminate.
Qed.

(** C1. Round trip: for every action [a] built from [SendSmsAction],
    [SendEmailAction], [ConditionAction], [LoopAction] and [SequenceAction],
    [a.toJSON()] returns a node, [ActionFactory.createAction] applied to that
    node returns an action, and the [toJSON()] of that action is the same
    node. *)
Theorem roundtrip (a : Action) :
  standard a = true ->
  exists json, toJSON a = Normal json /\
    exists a', createAction json = Normal a' /\ toJSON a' = Normal json.
Proof.
  intros Hstd.
  destruct (createAction_toJSON a Hstd) as (json & Hjson & Hcreate).
  exists json. split; [exact Hjson|].
  exists a. split; assumption.
Qed.

End FactoryFacts.

Section ExecuteFacts.
Context {engine : Engine}.
Local Open Scope exec_scope.

(** ** The monad *)

Lemma bind_ext {A B : Type} (c : Exec A) (k k' : A -> Exec B) (s : State) :
  (forall a s', k a s' = k' a s') -> bind c k s = bind c k' s.
Proof.
  intros H. unfold bind. destruct (c s) as [[[a|e] s']|]; auto.
Qed.

Lemma bind_normal {A B : Type} (c : Exec A) (k : A -> Exec B) s a s' :
  c s = Some (Normal a, s') -> bind c k s = k a s'.
Proof. intros H. unfold bind. rewrite H. reflexivity. Qed.

Lemma bind_throw {A B : Type} (c : Exec A) (k : A -> Exec B) s e s' :
  c s = Some (Throw e, s') -> bind c k s = Some (Throw e, s').
Proof. intros H. unfold bind. rewrite H. reflexivity. Qed.

Lemma console_log_logged line s :
  console_log line s = Some (Normal tt, logged s line).
Proof. reflexivity. Qed.

Lemma console_error_logged label err s :
  console_error label err s = Some (Normal tt, logged_error s label err).
Proof. reflexivity. Qed.

(** ** More budget never changes a result *)

Lemma for_of_mono {A : Type} (body body' : A -> Exec unit) (l : list A) :
  Forall (fun x => forall s r, body x s = Some r -> body' x s = Some r) l ->
  forall s r, for_of body l s = Some r -> for_of body' l s = Some r.
Proof.
  induction 1 as [|x rest Hx _ IH]; simpl; intros s r Hr.
  - exact Hr.
  - unfold bind in *.
    destruct (body x s) as [[[[]|e] s']|] eqn:Hbody; [| |discriminate].
    + rewrite (Hx _ _ Hbody). apply IH. exact Hr.
    + rewrite (Hx _ _ Hbody). exact Hr.
Qed.

Lemma for_lt_mono (body body' : nat -> Exec unit) bound :
  (forall i s r, body i s = Some r -> body' i s = Some r) ->
  forall fuel fuel' i s r,
    (fuel <= fuel')%nat ->
    for_lt fuel bound body i s = Some r ->
    for_lt fuel' bound body' i s = Some r.
Proof.
  intros Hbody. induction fuel as [|fuel IH]; intros fuel' i s r Hle Hr.
  - discriminate.
  - destruct fuel' as [|fuel']; [lia|].
    simpl in *. unfold bind in *.
    destruct (lift (ToNumber bound) s) as [[[n|e] s1]|]; [| exact Hr | exact Hr].
    destruct (counter_lt i n); [|exact Hr].
    destruct (body i s1) as [[[[]|e] s2]|] eqn:Hi; [| |discriminate].
    + rewrite (Hbody _ _ _ Hi). apply IH; [lia | exact Hr].
    + rewrite (Hbody _ _ _ Hi). exact Hr.
Qed.

Lemma execute_mono fuel :
  forall fuel' a context s r,
    (fuel <= fuel')%nat ->
    execute fuel a context s = Some r ->
    execute fuel' a context s = Some r.
Proof.
  induction fuel as [|fuel IH]; intros fuel' a context s r Hle Hr.
  - discriminate.
  - destruct fuel' as [|fuel']; [lia|].
    assert (Hle' : (fuel <= fuel')%nat) by lia.
    destruct a as [phone|sender receiver|expression t f|iterations body|actions|v];
      simpl in *; try exact Hr.
    + unfold bind in *.
      destruct (try_catch _ _ s) as [[[result|e] s1]|]; try exact Hr.
      destruct (lift (ToString expression) s1) as [[[text|e] s2]|]; try exact Hr.
      destruct (console_log _ s2) as [[[[]|e] s3]|]; try exact Hr.
      destruct result.
      * apply IH; assumption.
      * destruct f as [fa|]; [|exact Hr].
        destruct (truthy fa); [|exact Hr]. apply IH; assumption.
    + unfold bind in *.
      destruct (lift (ToString iterations) s) as [[[text|e] s1]|]; try exact Hr.
      destruct (console_log _ s1) as [[[[]|e] s2]|]; try exact Hr.
      apply for_lt_mono with (body := fun i =>
        bind (console_log ("LoopAction: Iteration "
                           ++ NumberToString (of_nat (increment i))))
             (fun _ => execute fuel body context)) (fuel := fuel);
        [|exact Hle'|exact Hr].
      intros i s' r' Hr'. unfold bind in *.
      destruct (console_log _ s') as [[[[]|e] s3]|]; try exact Hr'.
      apply IH; assumption.
    + unfold bind in *.
      destruct (console_log _ s) as [[[[]|e] s1]|]; try exact Hr.
      apply for_of_mono with (body := fun action => execute fuel action context);
        [|exact Hr].
      apply Forall_forall. intros x _ s' r' Hr'. apply IH; assumption.
Qed.

(** ** The [execute] methods, one call deep *)

Lemma execute_sms fuel phone context :
  execute (S fuel) (SendSmsAction phone) context =
  (p <- lift (ToString phone) ;;
   console_log ("SendSmsAction: Sending SMS to " ++ p)).
Proof. reflexivity. Qed.

Lemma execute_condition fuel expression trueAction falseAction context :
  execute (S fuel) (ConditionAction expression trueAction falseAction) context =
  (result <-
     try_catch
       (e <- lift (ToString expression) ;;
        v <- call_new_Function
               ("with(context) { return (" ++ e ++ "); }")
               (or_empty context) ;;
        ret (ToBoolean v))
       (fun err =>
          console_error "Error evaluating condition:" err ;;
          ret false) ;;
   e <- lift (ToString expression) ;;
   console_log ("ConditionAction: Expression " ++ quote ++ e ++ quote
                ++ " evaluated to " ++ string_of_bool result) ;;
   if result then execute fuel trueAction context
   else
     match falseAction with
     | Some fa => if truthy fa then execute fuel fa context else ret tt
     | None => ret tt
     end).
Proof. reflexivity. Qed.

Lemma execute_loop fuel iterations action context :
  execute (S fuel) (LoopAction iterations action) context =
  (n <- lift (ToString iterations) ;;
   console_log ("LoopAction: Starting loop for " ++ n ++ " iterations.") ;;
   for_lt fuel iterations
     (fun i =>
        console_log ("LoopAction: Iteration "
                     ++ NumberToString (of_nat (increment i))) ;;
        execute fuel action context)
     0).
Proof. reflexivity. Qed.

Lemma execute_sequence fuel actions context :
  execute (S fuel) (SequenceAction actions) context =
  (console_log ("SequenceAction: Executing "
                ++ NumberToString (of_nat (List.length actions))
                ++ " actions in sequence.") ;;
   for_of (fun action => execute fuel action context) actions).
Proof. reflexivity. Qed.

Lemma execute_not_an_action fuel v context s :
  execute (S fuel) (NotAnAction v) context s = Some (Throw TypeError, s).
Proof. reflexivity. Qed.

(** ** LoopAction *)

Lemma lift_normal {A B : Type} (a : A) (k : A -> Exec B) (s : State) :
  bind (lift (Normal a)) k s = k a s.
Proof. reflexivity. Qed.

Lemma lift_throw {A B : Type} (e : Exception) (k : A -> Exec B) (s : State) :
  bind (lift (Throw e)) k s = Some (Throw e, s).
Proof. reflexivity. Qed.

(** Comparing the counter with an integer bound. *)
Lemma counter_lt_integer (q : Q) (n i : nat) :
  q == inject_Z (Z.of_nat n) ->
  counter_lt i (Finite q) = (i <? n)%nat.
Proof.
  intros Hq. unfold counter_lt.
  destruct (Nat.ltb_spec i n) as [Hlt|Hge].
  - destruct (Qle_bool q (inject_Z (Z.of_nat i))) eqn:Hle; [|reflexivity].
    apply Qle_bool_iff in Hle. rewrite Hq in Hle.
    rewrite <- Zle_Qle in Hle. lia.
  - assert (Hle : Qle_bool q (inject_Z (Z.of_nat i)) = true).
    { apply Qle_bool_iff. rewrite Hq. rewrite <- Zle_Qle. lia. }
    rewrite Hle. reflexivity.
Qed.

Lemma counter_lt_zero_or_negative (x : Number) (i : nat) :
  zero_or_negative x -> counter_lt i x = false.
Proof.
  destruct x as [| | |q]; simpl; intros H; try reflexivity; try contradiction.
  assert (Hle : Qle_bool q (inject_Z (Z.of_nat i)) = true).
  { apply Qle_bool_iff. apply Qle_trans with 0; [exact H|].
    change 0 with (inject_Z 0). rewrite <- Zle_Qle. lia. }
  rewrite Hle. reflexivity.
Qed.

Lemma increment_below (i : nat) :
  (N.of_nat i < 9007199254740992)%N -> increment i = S i.
Proof.
  intros H. unfold increment.
  destruct (N.ltb_spec (N.of_nat i) 9007199254740992); [reflexivity | lia].
Qed.

Lemma increment_bounded (i : nat) :
  (N.of_nat i <= 9007199254740992)%N ->
  (N.of_nat (increment i) <= 9007199254740992)%N.
Proof.
  intros H. unfold increment.
  destruct (N.ltb_spec (N.of_nat i) 9007199254740992); lia.
Qed.

(** Calls that agree on the call numbers used give the same run. *)
Lemma times_ext (n : nat) (body body' : nat -> Exec unit) :
  forall i s,
    (forall j s', (i <= j < i + n)%nat -> body j s' = body' j s') ->
    times n body i s = times n body' i s.
Proof.
  induction n as [|n IH]; intros i s Hbody; simpl.
  - reflexivity.
  - unfold bind. rewrite (Hbody i s) by lia.
    destruct (body' i s) as [[[[]|e] s1]|]; try reflexivity.
    apply IH. intros j s' Hj. apply Hbody. lia.
Qed.

(** A counting loop whose bound behaves like the integer [i + k], at most
    2^53, makes [k] calls of its body, given a budget for [k + 1] tests. *)
Lemma for_lt_times (k : nat) :
  forall fuel i bound body x,
    ToNumber bound = Normal x ->
    (forall j, counter_lt j x = (j <? i + k)%nat) ->
    (N.of_nat (i + k) <= 9007199254740992)%N ->
    (k < fuel)%nat ->
    forall s, for_lt fuel bound body i s = times k body i s.
Proof.
  induction k as [|k IH]; intros fuel i bound body x Hx Hlt Hmax Hfuel s;
    (destruct fuel as [|fuel]; [lia|]); simpl; rewrite Hx, lift_normal, Hlt.
  - replace (i <? i + 0)%nat with false
      by (symmetry; apply Nat.ltb_ge; lia).
    reflexivity.
  - replace (i <? i + S k)%nat with true
      by (symmetry; apply Nat.ltb_lt; lia).
    rewrite increment_below by lia.
    apply bind_ext. intros [] s'.
    apply IH with (x := x); [exact Hx | | lia | lia].
    intros j. rewrite Hlt. f_equal. lia.
Qed.

(** The loop of [LoopAction.execute] for a count [n] of at most 2^53. *)
Lemma for_lt_iterations (fuel n : nat) (q : Q) (body : Action)
  (context : Value) (s : State) :
  q == inject_Z (Z.of_nat n) ->
  (Z.of_nat n <= 9007199254740992)%Z ->
  (n < fuel)%nat ->
  for_lt fuel (VNum (Finite q))
    (fun i =>
       console_log ("LoopAction: Iteration "
                    ++ NumberToString (of_nat (increment i))) ;;
       execute fuel body context)
    0 s =
  times n
    (fun i =>
       console_log ("LoopAction: Iteration " ++ NumberToString (of_nat (S i))) ;;
       execute fuel body context)
    0 s.
Proof.
  intros Hq Hmax Hfuel.
  rewrite for_lt_times with (k := n) (x := Finite q);
    [| reflexivity | intros j; apply counter_lt_integer; exact Hq
     | lia | exact Hfuel].
  apply times_ext. intros j s' Hj.
  rewrite increment_below by lia. reflexivity.
Qed.

(** C7, as the code has it. A [LoopAction] whose count is the non-negative
    integer [n], at most 2^53, logs its start line and then calls the
    [execute] of its body one call after the other, the iterations numbered
    from 1 in ascending order, each call receiving the same [context], until
    [n] calls have returned or a call throws: [times] goes on to the next
    call only when a call returns, and the error of a call that throws is
    the error of the loop.  When no call throws there are exactly [n] calls;
    with [n = 0] there is no call. *)
Theorem loop_count (fuel n : nat) (q : Q) (body : Action) (context : Value)
  (s : State) :
  q == inject_Z (Z.of_nat n) ->
  (Z.of_nat n <= 9007199254740992)%Z ->
  (n < fuel)%nat ->
  execute (S fuel) (LoopAction (VNum (Finite q)) body) context s =
  (console_log ("LoopAction: Starting loop for "
                ++ NumberToString (Finite q) ++ " iterations.") ;;
   times n
     (fun i =>
        console_log ("LoopAction: Iteration " ++ NumberToString (of_nat (S i))) ;;
        execute fuel body context)
     0) s.
Proof.
  intros Hq Hmax Hfuel. rewrite execute_loop.
  change (ToString (VNum (Finite q))) with (Normal (NumberToString (Finite q))).
  rewrite lift_normal.
  apply bind_ext. intros [] s'.
  apply for_lt_iterations; assumption.
Qed.

(** When the body returns from every state, the loop returns. *)
Lemma times_returns (n : nat) (body : nat -> Exec unit) :
  (forall i s, exists s', body i s = Some (Normal tt, s')) ->
  forall i s, exists s', times n body i s = Some (Normal tt, s').
Proof.
  intros Hbody. induction n as [|n IH]; intros i s; simpl.
  - exists s. reflexivity.
  - destruct (Hbody i s) as [s1 H1].
    rewrite (bind_normal _ _ _ _ _ H1). apply IH.
Qed.

Lemma loop_returns (fuel n : nat) (q : Q) (body : Action) (context : Value) :
  q == inject_Z (Z.of_nat n) ->
  (Z.of_nat n <= 9007199254740992)%Z ->
  (forall s, exists s', execute fuel body context s = Some (Normal tt, s')) ->
  forall s, exists fuel' s',
    execute fuel' (LoopAction (VNum (Finite q)) body) context s
    = Some (Normal tt, s').
Proof.
  intros Hq Hmax Hbody s.
  exists (S (fuel + S n)).
  rewrite execute_loop.
  change (ToString (VNum (Finite q))) with (Normal (NumberToString (Finite q))).
  rewrite lift_normal.
  rewrite (bind_normal _ _ _ _ _ (console_log_logged _ s)).
  rewrite (for_lt_iterations (fuel + S n) n q body context _ Hq Hmax)
    by lia.
  apply times_returns. intros i s1.
  rewrite (bind_normal _ _ _ _ _ (console_log_logged _ s1)).
  destruct (Hbody (logged s1 ("LoopAction: Iteration "
                              ++ NumberToString (of_nat (S i))))) as [s2 H2].
  exists s2. apply execute_mono with (fuel := fuel); [lia | exact H2].
Qed.

(** With the count [Infinity] and a body that does not throw, the loop has
    no end: no budget gives a result. *)
Lemma for_lt_endless (body : nat -> Exec unit) :
  (forall i s e s', body i s <> Some (Throw e, s')) ->
  forall fuel i s, for_lt fuel (VNum PosInfinity) body i s = None.
Proof.
  intros Hbody. induction fuel as [|fuel IH]; intros i s.
  - reflexivity.
  - change (for_lt (S fuel) (VNum PosInfinity) body i s) with
      ((body i ;; for_lt fuel (VNum PosInfinity) body (increment i)) s).
    unfold bind.
    destruct (body i s) as [[[[]|e] s']|] eqn:Hi.
    + apply IH.
    + exfalso. exact (Hbody _ _ _ _ Hi).
    + reflexivity.
Qed.

Lemma endless_loop (fuel : nat) (phone : string) (context : Value) (s : State) :
  execute fuel (LoopAction (VNum PosInfinity) (SendSmsAction (VStr phone)))
    context s = None.
Proof.
  destruct fuel as [|fuel]; [reflexivity|].
  rewrite execute_loop.
  change (ToString (VNum PosInfinity)) with (Normal "Infinity").
  rewrite lift_normal.
  rewrite (bind_normal _ _ _ _ _ (console_log_logged _ s)).
  apply for_lt_endless.
  intros i s1 e s2.
  rewrite (bind_normal _ _ _ _ _ (console_log_logged _ s1)).
  destruct fuel as [|fuel]; [discriminate|].
  rewrite execute_sms. discriminate.
Qed.

(** C10. A [LoopAction] whose count is zero or negative logs its start line,
    makes no call of its body's [execute] and returns without an error. *)
Theorem loop_zero_or_negative (fuel : nat) (x : Number) (body : Action)
  (context : Value) (s : State) :
  zero_or_negative x ->
  execute (S (S fuel)) (LoopAction (VNum x) body) context s =
  Some (Normal tt,
        logged s ("LoopAction: Starting loop for "
                  ++ NumberToString x ++ " iterations.")).
Proof.
  intros Hx. rewrite execute_loop.
  change (ToString (VNum x)) with (Normal (NumberToString x)).
  rewrite lift_normal.
  rewrite (bind_normal _ _ _ _ _ (console_log_logged _ s)).
  change (for_lt (S fuel) (VNum x)) with
    (fun body i =>
       n <- lift (Normal x) ;;
       if counter_lt i n
       then body i ;; for_lt fuel (VNum x) body (increment i)
       else ret tt).
  cbv beta. rewrite lift_normal, (counter_lt_zero_or_negative x 0 Hx).
  reflexivity.
Qed.

(** ** ConditionAction *)

(** The [try] block of [ConditionAction.execute] when the call returns. *)
Lemma condition_try_returns expression text context s v w' :
  ToString expression = Normal text ->
  callFunction ("with(context) { return (" ++ text ++ "); }")
               (or_empty context) (world s) = (Normal v, w') ->
  try_catch
    (e <- lift (ToString expression) ;;
     v <- call_new_Function
            ("with(context) { return (" ++ e ++ "); }") (or_empty context) ;;
     ret (ToBoolean v))
    (fun err => console_error "Error evaluating condition:" err ;; ret false) s
  = Some (Normal (ToBoolean v), mkState (console s) w').
Proof.
  intros Htext Hcall.
  unfold try_catch, bind, call_new_Function. rewrite Htext.
  cbv [lift ret]. rewrite Hcall. reflexivity.
Qed.

(** The [try] block when the call throws: the handler logs the error and the
    result keeps its initial value [false]. *)
Lemma condition_try_throws expression text context s err w' :
  ToString expression = Normal text ->
  callFunction ("with(context) { return (" ++ text ++ "); }")
               (or_empty context) (world s) = (Throw err, w') ->
  try_catch
    (e <- lift (ToString expression) ;;
     v <- call_new_Function
            ("with(context) { return (" ++ e ++ "); }") (or_empty context) ;;
     ret (ToBoolean v))
    (fun err => console_error "Error evaluating condition:" err ;; ret false) s
  = Some (Normal false,
          mkState (console s ++ [LogError "Error evaluating condition:" err]) w').
Proof.
  intros Htext Hcall.
  unfold try_catch, bind, call_new_Function. rewrite Htext.
  cbv [lift ret]. rewrite Hcall. reflexivity.
Qed.

(** C3, as the code has it. When the expression of a [ConditionAction] has
    a string form [text] (every string has one, an object with an own
    [toString] has none) and compiling or calling it throws, [execute] logs
    the error, takes the result to be [false], logs the result and goes on
    with [falseAction] when there is one, and returns otherwise; the error of
    the evaluation is not propagated: what [execute] does from there on is
    what [falseAction] does. *)
Theorem condition_evaluation_error (fuel : nat) (expression : Value)
  (text : string) (trueAction : Action) (falseAction : option Action)
  (context : Value) (s : State) (err : Exception) (w' : World) :
  ToString expression = Normal text ->
  callFunction ("with(context) { return (" ++ text ++ "); }")
               (or_empty context) (world s) = (Throw err, w') ->
  execute (S fuel) (ConditionAction expression trueAction falseAction) context s =
  let s' :=
    mkState
      (console s ++
       [LogError "Error evaluating condition:" err;
        Log ("ConditionAction: Expression " ++ quote ++ text ++ quote
             ++ " evaluated to false")])
      w' in
  match falseAction with
  | Some fa => if truthy fa then execute fuel fa context s'
               else Some (Normal tt, s')
  | None => Some (Normal tt, s')
  end.
Proof.
  intros Htext Hcall. rewrite execute_condition.
  rewrite (bind_normal _ _ _ _ _
             (condition_try_throws expression text context s err w' Htext Hcall)).
  rewrite Htext, lift_normal.
  unfold bind at 1, console_log at 1. cbn [console world].
  rewrite <- app_assoc. cbn [app string_of_bool].
  destruct falseAction as [fa|]; [destruct (truthy fa)|]; reflexivity.
Qed.

(** C8. When the evaluation of the expression of a [ConditionAction] returns
    a value, the value is converted to a boolean and logged; when it is truthy
    [execute] goes on with [trueAction] and [falseAction] is not executed;
    when it is falsy [execute] goes on with [falseAction] when there is one
    and returns otherwise, and [trueAction] is not executed. *)
Theorem condition_branch (fuel : nat) (expression : Value) (text : string)
  (trueAction : Action) (falseAction : option Action) (context : Value)
  (s : State) (v : Value) (w' : World) :
  ToString expression = Normal text ->
  callFunction ("with(context) { return (" ++ text ++ "); }")
               (or_empty context) (world s) = (Normal v, w') ->
  execute (S fuel) (ConditionAction expression trueAction falseAction) context s =
  let s' :=
    mkState
      (console s ++
       [Log ("ConditionAction: Expression " ++ quote ++ text ++ quote
             ++ " evaluated to " ++ string_of_bool (ToBoolean v))])
      w' in
  if ToBoolean v then execute fuel trueAction context s'
  else
    match falseAction with
    | Some fa => if truthy fa then execute fuel fa context s'
                 else Some (Normal tt, s')
    | None => Some (Normal tt, s')
    end.
Proof.
  intros Htext Hcall. rewrite execute_condition.
  rewrite (bind_normal _ _ _ _ _
             (condition_try_returns expression text context s v w' Htext Hcall)).
  rewrite Htext, lift_normal.
  unfold bind at 1, console_log at 1. cbn [console world].
  destruct (ToBoolean v); [reflexivity|].
  destruct falseAction as [fa|]; [destruct (truthy fa)|]; reflexivity.
Qed.

(** An expression that has no string form (the class declares [expression]
    to be a string, the factory does not check it): the template literal in
    the [try] block throws and is caught, the one of the log line after it
    throws again, and this second error leaves [execute]. *)
Lemma condition_unprintable_expression fuel expression trueAction falseAction
  context s :
  ToString expression = Throw TypeError ->
  execute (S fuel) (ConditionAction expression trueAction falseAction) context s
  = Some (Throw TypeError,
          logged_error s "Error evaluating condition:" TypeError).
Proof.
  intros Htext. rewrite execute_condition.
  unfold try_catch, bind. rewrite Htext. reflexivity.
Qed.

(** ** SequenceAction *)

Lemma for_of_runs fuel context steps s s' :
  runs_in_order fuel context steps s s' ->
  for_of (fun action => execute fuel action context) steps s
  = Some (Normal tt, s').
Proof.
  induction 1 as [s|a rest s s1 s2 Ha _ IH]; simpl.
  - reflexivity.
  - rewrite (bind_normal _ _ _ _ _ Ha). exact IH.
Qed.

Lemma for_of_throws fuel context before a after s s1 e s2 :
  runs_in_order fuel context before s s1 ->
  execute fuel a context s1 = Some (Throw e, s2) ->
  for_of (fun action => execute fuel action context) (before ++ a :: after)%list s
  = Some (Throw e, s2).
Proof.
  induction 1 as [s|b rest s s' s1 Hb _ IH]; simpl; intros Ha.
  - apply bind_throw. exact Ha.
  - rewrite (bind_normal _ _ _ _ _ Hb). apply IH. exact Ha.
Qed.

(** C2, as the code has it. [SequenceAction.execute] logs its header and
    executes the steps strictly in list order, each with the same [context].
    When every step returns, the sequence returns in the state the last step
    left.  When a step throws, the steps before it have run in order, the
    steps after it are not executed, and the sequence throws the same error
    in the state the failing step left. *)
Theorem sequence_in_order_until_error (fuel : nat) (steps : list Action)
  (context : Value) (s : State) :
  let s0 := logged s ("SequenceAction: Executing "
                      ++ NumberToString (of_nat (List.length steps))
                      ++ " actions in sequence.") in
  (forall s',
      runs_in_order fuel context steps s0 s' ->
      execute (S fuel) (SequenceAction steps) context s = Some (Normal tt, s'))
  /\
  (forall before a after s1 e s2,
      steps = (before ++ a :: after)%list ->
      runs_in_order fuel context before s0 s1 ->
      execute fuel a context s1 = Some (Throw e, s2) ->
      execute (S fuel) (SequenceAction steps) context s = Some (Throw e, s2)).
Proof.
  intros s0. split.
  - intros s' Hruns. rewrite execute_sequence.
    rewrite (bind_normal _ _ _ _ _ (console_log_logged _ s)).
    apply for_of_runs. exact Hruns.
  - intros before a after s1 e s2 Hsteps Hruns Ha. rewrite execute_sequence.
    rewrite (bind_normal _ _ _ _ _ (console_log_logged _ s)).
    fold s0. rewrite Hsteps.
    apply for_of_throws with (s1 := s1); [|exact Ha].
    subst steps. exact Hruns.
Qed.

End ExecuteFacts.

Section ServiceFacts.
Context {engine : Engine}.

(** ** ActionFactory.createAction *)

Lemma createAction_falsy json :
  ToBoolean json = false -> createAction json = Throw invalid_json.
Proof.
  intros H. rewrite createAction_unfold. unfold createAction_body.
  rewrite H. reflexivity.
Qed.

Lemma createAction_no_type json type :
  get json "type" = Normal type -> ToBoolean type = false ->
  createAction json = Throw invalid_json.
Proof.
  intros Hget Htype. rewrite createAction_unfold. unfold createAction_body.
  destruct (negb (ToBoolean json)); [reflexivity|].
  rewrite Hget. cbn [bindC]. rewrite Htype. reflexivity.
Qed.

(** Past the two guards, [createAction] calls what the registry holds under
    the key of [json.type]. *)
Lemma createAction_dispatch json type key :
  ToBoolean json = true ->
  get json "type" = Normal type ->
  ToBoolean type = true ->
  ToString type = Normal key ->
  createAction json =
  if is_missing (registryGet (registry createAction) key)
  then Throw (unknown_action_type key)
  else call (registryGet (registry createAction) key) json.
Proof.
  intros Hjson Hget Htype Hkey.
  rewrite createAction_unfold. unfold createAction_body.
  rewrite Hjson, Hget. cbn [negb bindC]. rewrite Htype, Hkey. reflexivity.
Qed.

Lemma createAction_unknown json type key :
  ToBoolean json = true ->
  get json "type" = Normal type ->
  ToBoolean type = true ->
  ToString type = Normal key ->
  registryGet (registry createAction) key = Missing ->
  createAction json = Throw (unknown_action_type key).
Proof.
  intros Hjson Hget Htype Hkey Hmissing.
  rewrite (createAction_dispatch json type key Hjson Hget Htype Hkey).
  rewrite Hmissing. reflexivity.
Qed.

Lemma createAction_registered json type key factory :
  ToBoolean json = true ->
  get json "type" = Normal type ->
  ToBoolean type = true ->
  ToString type = Normal key ->
  registered (registry createAction) key = Some factory ->
  createAction json = factory json.
Proof.
  intros Hjson Hget Htype Hkey Hfactory.
  rewrite (createAction_dispatch json type key Hjson Hget Htype Hkey).
  unfold registryGet. rewrite Hfactory. reflexivity.
Qed.

(** A later registration replaces an earlier one. *)
Lemma register_last_wins type factory registry0 :
  registered (register type factory registry0) type = Some factory.
Proof. unfold register. simpl. rewrite String.eqb_refl. reflexivity. Qed.

(** A node whose [type] is the string [name]. *)
Lemma createAction_named fields name :
  own fields "type" = Some (VStr name) ->
  name <> EmptyString ->
  createAction (VObj fields) =
  if is_missing (registryGet (registry createAction) name)
  then Throw (unknown_action_type name)
  else call (registryGet (registry createAction) name) (VObj fields).
Proof.
  intros Htype Hname.
  apply createAction_dispatch with (type := VStr name).
  - reflexivity.
  - unfold get. rewrite Htype. reflexivity.
  - simpl. destruct (String.eqb_spec name EmptyString); [contradiction|reflexivity].
  - reflexivity.
Qed.

(** ** The loop factory *)

(** C9, as the code has it. The loop factory passes [json.params.iterations]
    to the constructor as it is and the constructor stores it: the count of
    the [LoopAction] built from a node is whatever value the node carries,
    with no check that it is a non-negative integer. *)
Theorem loop_factory_keeps_iterations (fields : list (string * Value))
  (params iterations actionJson : Value) (action : Action) :
  own fields "type" = Some (VStr "loop") ->
  own fields "params" = Some params ->
  get params "iterations" = Normal iterations ->
  own fields "action" = Some actionJson ->
  createAction actionJson = Normal action ->
  createAction (VObj fields) = Normal (LoopAction iterations action).
Proof.
  intros Htype Hparams Hiterations HactionJson Haction.
  rewrite (createAction_named fields "loop" Htype) by discriminate.
  change (registryGet (registry createAction) "loop")
    with (Registered (loop_factory createAction)).
  cbn [is_missing call]. unfold loop_factory, get at 1 3.
  rewrite Hparams, HactionJson. cbn [bindC].
  rewrite Hiterations, Haction. reflexivity.
Qed.

(** ** A node without [params] *)

(** ** A node without [params] *)

(** The factories of [send_sms], [send_email], [condition] and [loop] read
    [json.params] first; without it they read a property of [undefined]. *)
Lemma createAction_without_params (fields : list (string * Value))
  (name : string) :
  own fields "type" = Some (VStr name) ->
  In name ["send_sms"; "send_email"; "condition"; "loop"] ->
  own fields "params" = None ->
  createAction (VObj fields) = Throw TypeError.
Proof.
  intros Htype Hname Hparams.
  assert (Hget : get (VObj fields) "params" = Normal VUndefined)
    by (unfold get; rewrite Hparams; reflexivity).
  simpl in Hname.
  destruct Hname as [<-|[<-|[<-|[<-|[]]]]];
    rewrite (createAction_named fields _ Htype) by discriminate.
  - change (registryGet (registry createAction) "send_sms")
      with (Registered (send_sms_factory)).
    cbn [is_missing call]. unfold send_sms_factory. rewrite Hget. reflexivity.
  - change (registryGet (registry createAction) "send_email")
      with (Registered (send_email_factory)).
    cbn [is_missing call]. unfold send_email_factory. rewrite Hget. reflexivity.
  - change (registryGet (registry createAction) "condition")
      with (Registered (condition_factory createAction)).
    cbn [is_missing call]. unfold condition_factory. rewrite Hget. reflexivity.
  - change (registryGet (registry createAction) "loop")
      with (Registered (loop_factory createAction)).
    cbn [is_missing call]. unfold loop_factory. rewrite Hget. reflexivity.
Qed.

(** ** DecisionTreeService.processDecisionTree *)

Lemma processDecisionTree_create_throws fuel json context s e :
  createAction json = Throw e ->
  processDecisionTree fuel json context s =
  Some (Normal tt, logged_error s "Error processing decision tree:" e).
Proof.
  intros H. unfold processDecisionTree, try_catch, bind. rewrite H. reflexivity.
Qed.

Lemma processDecisionTree_execute fuel json context s action :
  createAction json = Normal action ->
  processDecisionTree fuel json context s =
  match execute fuel action context s with
  | Some (Throw e, s') =>
      Some (Normal tt, logged_error s' "Error processing decision tree:" e)
  | r => r
  end.
Proof.
  intros H. unfold processDecisionTree, try_catch, bind. rewrite H.
  cbn [lift ret].
  destruct (execute fuel action context s) as [[[[]|e] s']|]; reflexivity.
Qed.

(** C5, at the node [{type: "constructor"}]. No factory is registered under
    [constructor]; the lookup in the registry finds the inherited function
    [Object], the guard [!factory] does not fire, and [createAction] returns
    the node itself instead of throwing the unknown-type error.  In a run the
    node is then called as an action and the error that is logged is the
    [TypeError] of that call. *)
Theorem createAction_constructor :
  createAction (VObj [("type", VStr "constructor")])
  = Normal (NotAnAction (VObj [("type", VStr "constructor")]))
  /\ registered (registry createAction) "constructor" = None
  /\ forall fuel context s,
       processDecisionTree (S fuel) (VObj [("type", VStr "constructor")])
         context s =
       Some (Normal tt,
             logged_error s "Error processing decision tree:" TypeError).
Proof.
  split; [reflexivity|]. split; [reflexivity|].
  intros fuel context s.
  rewrite (processDecisionTree_execute (S fuel)
             (VObj [("type", VStr "constructor")]) context s
             (NotAnAction (VObj [("type", VStr "constructor")])) eq_refl).
  reflexivity.
Qed.

(** C4, as the code has it. [processDecisionTree] never lets an error out:
    an error thrown by [createAction] is written to the error log and no
    action is executed; an error thrown by [execute] is written to the error
    log after what the run had done so far; in both cases, and when the run
    succeeds, the call returns normally and without a value.  For the node
    [{}] the logged error is the one of the guard of [createAction]. *)
Theorem processDecisionTree_logs_errors (fuel : nat) (json context : Value)
  (s : State) :
  (forall e,
      createAction json = Throw e ->
      processDecisionTree fuel json context s =
      Some (Normal tt, logged_error s "Error processing decision tree:" e))
  /\
  (forall action e s',
      createAction json = Normal action ->
      execute fuel action context s = Some (Throw e, s') ->
      processDecisionTree fuel json context s =
      Some (Normal tt, logged_error s' "Error processing decision tree:" e))
  /\
  (forall action s',
      createAction json = Normal action ->
      execute fuel action context s = Some (Normal tt, s') ->
      processDecisionTree fuel json context s = Some (Normal tt, s'))
  /\
  (forall r s', processDecisionTree fuel json context s = Some (r, s') ->
                r = Normal tt)
  /\
  processDecisionTree fuel (VObj []) context s =
  Some (Normal tt,
        logged_error s "Error processing decision tree:" invalid_json).
Proof.
  split; [|split; [|split; [|split]]].
  - intros e H. apply processDecisionTree_create_throws. exact H.
  - intros action e s' Hcreate Hexec.
    rewrite (processDecisionTree_execute _ _ _ _ _ Hcreate), Hexec. reflexivity.
  - intros action s' Hcreate Hexec.
    rewrite (processDecisionTree_execute _ _ _ _ _ Hcreate), Hexec. reflexivity.
  - intros r s'. destruct (createAction json) as [action|e] eqn:Hcreate.
    + rewrite (processDecisionTree_execute _ _ _ _ _ Hcreate).
      destruct (execute fuel action context s) as [[[[]|e] s1]|];
        intros H; inversion H; reflexivity.
    + rewrite (processDecisionTree_create_throws _ _ _ _ _ Hcreate).
      intros H; inversion H; reflexivity.
  - apply processDecisionTree_create_throws. reflexivity.
Qed.

(** C6, as the code has it. For a node of type [send_sms], [send_email],
    [condition] or [loop] without a [params] property, [createAction] throws
    the runtime's [TypeError], not the error of its own guard, and
    [processDecisionTree] writes that error to the error log and returns
    normally: the run ends there and its caller is not told. *)
Theorem missing_params_type_error (fields : list (string * Value))
  (name : string) :
  own fields "type" = Some (VStr name) ->
  In name ["send_sms"; "send_email"; "condition"; "loop"] ->
  own fields "params" = None ->
  createAction (VObj fields) = Throw TypeError
  /\
  forall fuel context s,
    processDecisionTree fuel (VObj fields) context s =
    Some (Normal tt,
          logged_error s "Error processing decision tree:" TypeError).
Proof.
  intros Htype Hname Hparams.
  pose proof (createAction_without_params fields name Htype Hname Hparams)
    as Hcreate.
  split; [exact Hcreate|].
  intros fuel context s.
  apply processDecisionTree_create_throws. exact Hcreate.
Qed.

End ServiceFacts.

(** * Further properties *)

Section RegistryFacts.




End RegistryFacts.

Section NodeFacts.
Context {engine : Engine}.
Local Open Scope completion_scope.
Local Arguments String.eqb : simpl never.

(** ** Children are built in order and the first error decides *)

Lemma mapC_all {A B : Type} (f : A -> Completion B) items built :
  Forall2 (fun x y => f x = Normal y) items built ->
  mapC f items = Normal built.
Proof.
  induction 1 as [|x y items built Hx _ IH]; simpl.
  - reflexivity.
  - rewrite Hx, IH. reflexivity.
Qed.

Lemma mapC_first_error {A B : Type} (f : A -> Completion B)
  before bad after built e :
  Forall2 (fun x y => f x = Normal y) before built ->
  f bad = Throw e ->
  mapC f (before ++ bad :: after)%list = Throw e.
Proof.
  induction 1 as [|x y before built Hx _ IH]; simpl; intros Hbad.
  - rewrite Hbad. reflexivity.
  - rewrite Hx. simpl. rewrite (IH Hbad). reflexivity.
Qed.

Lemma get_own fields key v :
  own fields key = Some v -> get (VObj fields) key = Normal v.
Proof. intros H. unfold get. rewrite H. reflexivity. Qed.

Lemma get_absent fields key :
  own fields key = None -> get (VObj fields) key = Normal VUndefined.
Proof. intros H. unfold get. rewrite H. reflexivity. Qed.

Lemma createAction_sequence_fields fields :
  own fields "type" = Some (VStr "sequence") ->
  createAction (VObj fields) = sequence_factory createAction (VObj fields).
Proof.
  intros Htype. rewrite (createAction_named fields "sequence" Htype)
    by discriminate.
  reflexivity.
Qed.

Lemma createAction_condition_fields fields :
  own fields "type" = Some (VStr "condition") ->
  createAction (VObj fields) = condition_factory createAction (VObj fields).
Proof.
  intros Htype. rewrite (createAction_named fields "condition" Htype)
    by discriminate.
  reflexivity.
Qed.

Lemma createAction_loop_fields fields :
  own fields "type" = Some (VStr "loop") ->
  createAction (VObj fields) = loop_factory createAction (VObj fields).
Proof.
  intros Htype. rewrite (createAction_named fields "loop" Htype)
    by discriminate.
  reflexivity.
Qed.

Lemma createAction_sms_fields fields :
  own fields "type" = Some (VStr "send_sms") ->
  createAction (VObj fields) = send_sms_factory (VObj fields).
Proof.
  intros Htype. rewrite (createAction_named fields "send_sms" Htype)
    by discriminate.
  reflexivity.
Qed.

Lemma createAction_email_fields fields :
  own fields "type" = Some (VStr "send_email") ->
  createAction (VObj fields) = send_email_factory (VObj fields).
Proof.
  intros Htype. rewrite (createAction_named fields "send_email" Htype)
    by discriminate.
  reflexivity.
Qed.

(** X2. A [sequence] node.  When [actions] is not an array the factory
    throws a [TypeError].  When it is an array the children are built in
    array order: if all of them are built the result is the
    [SequenceAction] of the children in that order, and if one of them
    fails the node fails with the error of the first child that fails. *)
Theorem sequence_node (fields : list (string * Value)) :
  own fields "type" = Some (VStr "sequence") ->
  (forall actionsJson,
      get (VObj fields) "actions" = Normal actionsJson ->
      (forall items, actionsJson <> VArr items) ->
      createAction (VObj fields) = Throw TypeError)
  /\
  (forall items actions,
      own fields "actions" = Some (VArr items) ->
      Forall2 (fun json a => createAction json = Normal a) items actions ->
      createAction (VObj fields) = Normal (SequenceAction actions))
  /\
  (forall before bad after built e,
      own fields "actions" = Some (VArr (before ++ bad :: after)%list) ->
      Forall2 (fun json a => createAction json = Normal a) before built ->
      createAction bad = Throw e ->
      createAction (VObj fields) = Throw e).
Proof.
  intros Htype. rewrite (createAction_sequence_fields fields Htype).
  unfold sequence_factory. split; [|split].
  - intros actionsJson Hget Hnot. rewrite Hget. cbn [bindC].
    destruct actionsJson as [| | | | |items|]; try reflexivity.
    exfalso. exact (Hnot items eq_refl).
  - intros items actions Hactions Hall. rewrite (get_own _ _ _ Hactions).
    cbn [bindC]. rewrite (mapC_all _ _ _ Hall). reflexivity.
  - intros before bad after built e Hactions Hall Hbad.
    rewrite (get_own _ _ _ Hactions). cbn [bindC].
    rewrite (mapC_first_error _ _ _ _ _ _ Hall Hbad). reflexivity.
Qed.

(** X3. A [condition] node with [params].  [trueAction] is required:
    without it the node is rejected with the error of a node without type,
    and when it fails to build the node fails with the same error.
    [falseAction] is optional: when it is absent or falsy the action has no
    false branch, and when it is truthy it is built, its error being the
    error of the node. *)
Theorem condition_node (fields : list (string * Value))
  (params expression : Value) :
  own fields "type" = Some (VStr "condition") ->
  own fields "params" = Some params ->
  get params "expression" = Normal expression ->
  (own fields "trueAction" = None ->
   createAction (VObj fields) = Throw invalid_json)
  /\
  (forall trueJson e,
      own fields "trueAction" = Some trueJson ->
      createAction trueJson = Throw e ->
      createAction (VObj fields) = Throw e)
  /\
  (forall trueJson t falseJson,
      own fields "trueAction" = Some trueJson ->
      createAction trueJson = Normal t ->
      get (VObj fields) "falseAction" = Normal falseJson ->
      createAction (VObj fields) =
      if ToBoolean falseJson
      then match createAction falseJson with
           | Normal f => Normal (ConditionAction expression t (Some f))
           | Throw e => Throw e
           end
      else Normal (ConditionAction expression t None)).
Proof.
  intros Htype Hparams Hexpression.
  rewrite (createAction_condition_fields fields Htype).
  unfold condition_factory.
  rewrite (get_own _ _ _ Hparams). cbn [bindC].
  rewrite Hexpression. cbn [bindC].
  split; [|split].
  - intros Habsent. rewrite (get_absent _ _ Habsent). reflexivity.
  - intros trueJson e Htrue Hthrow. rewrite (get_own _ _ _ Htrue).
    cbn [bindC]. rewrite Hthrow. reflexivity.
  - intros trueJson t falseJson Htrue Hbuilt Hfalse.
    rewrite (get_own _ _ _ Htrue). cbn [bindC].
    rewrite Hbuilt. cbn [bindC]. rewrite Hfalse. cbn [bindC].
    destruct (ToBoolean falseJson); [|reflexivity].
    destruct (createAction falseJson); reflexivity.
Qed.

(** X4. A [loop] node with [params].  [action] is required: without it the
    node is rejected with the error of a node without type, and when it
    fails to build the node fails with the same error. *)
Theorem loop_node_child (fields : list (string * Value)) (params : Value) :
  own fields "type" = Some (VStr "loop") ->
  own fields "params" = Some params ->
  params <> VUndefined -> params <> VNull ->
  (own fields "action" = None ->
   createAction (VObj fields) = Throw invalid_json)
  /\
  (forall actionJson e,
      own fields "action" = Some actionJson ->
      createAction actionJson = Throw e ->
      createAction (VObj fields) = Throw e).
Proof.
  intros Htype Hparams Hundefined Hnull.
  rewrite (createAction_loop_fields fields Htype).
  unfold loop_factory. rewrite (get_own _ _ _ Hparams). cbn [bindC].
  assert (Hget : exists iterations, get params "iterations" = Normal iterations).
  { destruct params as [| | | | | |ps]; try contradiction;
      try (eexists; reflexivity).
    unfold get. destruct (own ps "iterations"); eexists; reflexivity. }
  destruct Hget as [iterations Hiterations]. rewrite Hiterations. cbn [bindC].
  split.
  - intros Habsent. rewrite (get_absent _ _ Habsent). reflexivity.
  - intros actionJson e Haction Hthrow. rewrite (get_own _ _ _ Haction).
    cbn [bindC]. rewrite Hthrow. reflexivity.
Qed.

(** X17. A node whose [type] is a string that is not empty, names none of
    the five registered factories and names no member of
    [Object.prototype] is rejected with the error
    [Unknown action type: ] followed by that string. *)
Theorem unknown_type_rejected (fields : list (string * Value)) (name : string) :
  own fields "type" = Some (VStr name) ->
  name <> EmptyString ->
  ~ In name ["sequence"; "loop"; "condition"; "send_email"; "send_sms"] ->
  ~ In name ("constructor" :: "toString" :: "__proto__" :: object_methods) ->
  createAction (VObj fields) = Throw (Error ("Unknown action type: " ++ name)).
Proof.
  intros Htype Hname Hregistered Hinherited.
  rewrite (createAction_named fields name Htype Hname).
  assert (Hmissing : registryGet (registry createAction) name = Missing).
  { unfold registryGet, registry, register. simpl registered.
    repeat match goal with
    | |- context [String.eqb ?a name] =>
        destruct (String.eqb_spec a name) as [Heq|_];
        [exfalso; apply Hregistered; subst name; simpl; tauto|]
    end.
    destruct (String.eqb_spec name "constructor") as [Heq|_];
      [exfalso; apply Hinherited; subst name; simpl; tauto|].
    destruct (String.eqb_spec name "toString") as [Heq|_];
      [exfalso; apply Hinherited; subst name; simpl; tauto|].
    destruct (String.eqb_spec name "__proto__") as [Heq|_];
      [exfalso; apply Hinherited; subst name; simpl; tauto|].
    destruct (existsb (String.eqb name) object_methods) eqn:Hex; [|reflexivity].
    exfalso. apply Hinherited.
    apply existsb_exists in Hex. destruct Hex as (m & Hm & Heq).
    apply String.eqb_eq in Heq. subst m.
    right. right. right. exact Hm. }
  rewrite Hmissing. reflexivity.
Qed.

End NodeFacts.

Section RunFacts.
Context {engine : Engine}.
Local Open Scope exec_scope.

(** ** Leaves, from the node to the console *)

Lemma ToString_throws v e : ToString v = Throw e -> e = TypeError.
Proof.
  induction v as [| |b|n|str|items IH|fields IH] using Value_tree_ind;
    simpl; intros H; try discriminate.
  - destruct b; discriminate.
  - induction IH as [|x rest Hx _ IHrest]; simpl in H; [discriminate|].
    destruct (match x with
              | VUndefined | VNull => Normal EmptyString
              | _ => ToString x
              end) as [part|e0] eqn:Hpart.
    + simpl in H.
      destruct (sequenceC
                  (map (fun x0 => match x0 with
                                  | VUndefined | VNull => Normal EmptyString
                                  | _ => ToString x0
                                  end) rest)) as [parts|e1] eqn:Hparts.
      * discriminate.
      * apply IHrest. simpl. simpl in H. exact H.
    + simpl in H. inversion H. subst.
      destruct x; try discriminate; exact (Hx Hpart).
  - destruct (hasOwn fields "toString"); inversion H; reflexivity.
Qed.

Lemma no_string_form v : has_string_form v = false -> ToString v = Throw TypeError.
Proof.
  unfold has_string_form.
  destruct (ToString v) as [text|e] eqn:H; intros Hnone; [discriminate|].
  rewrite (ToString_throws _ _ H). reflexivity.
Qed.

(** X5. A [send_sms] node whose [params] is neither [undefined] nor [null]
    is always built, with whatever [params.phone] is.  A run of it writes
    one line with the string form of that value (the text [undefined] when
    [phone] is missing) and returns; when the value has no string form the
    run writes the [TypeError] of the template literal to the error log
    instead. *)
Theorem send_sms_node_run (fields : list (string * Value))
  (params phone : Value) :
  own fields "type" = Some (VStr "send_sms") ->
  own fields "params" = Some params ->
  get params "phone" = Normal phone ->
  createAction (VObj fields) = Normal (SendSmsAction phone)
  /\
  (forall text fuel context s,
      ToString phone = Normal text ->
      processDecisionTree (S fuel) (VObj fields) context s =
      Some (Normal tt, logged s ("SendSmsAction: Sending SMS to " ++ text)))
  /\
  (forall fuel context s,
      has_string_form phone = false ->
      processDecisionTree (S fuel) (VObj fields) context s =
      Some (Normal tt,
            logged_error s "Error processing decision tree:" TypeError)).
Proof.
  intros Htype Hparams Hphone.
  assert (Hcreate : createAction (VObj fields) = Normal (SendSmsAction phone)).
  { rewrite (createAction_sms_fields fields Htype). unfold send_sms_factory.
    rewrite (get_own _ _ _ Hparams). cbn [bindC]. rewrite Hphone. reflexivity. }
  split; [exact Hcreate|]. split.
  - intros text fuel context s Htext.
    rewrite (processDecisionTree_execute _ _ _ _ _ Hcreate).
    rewrite execute_sms, Htext, lift_normal. reflexivity.
  - intros fuel context s Hnone.
    rewrite (processDecisionTree_execute _ _ _ _ _ Hcreate).
    rewrite execute_sms, (no_string_form _ Hnone). reflexivity.
Qed.

(** X6. A [send_email] node whose [params] is neither [undefined] nor
    [null] is always built, with whatever [params.sender] and
    [params.receiver] are.  A run of it writes one line with the string
    forms of the two values and returns; when one of them has no string
    form the run writes the [TypeError] of the template literal to the
    error log instead. *)
Theorem send_email_node_run (fields : list (string * Value))
  (params sender receiver : Value) :
  own fields "type" = Some (VStr "send_email") ->
  own fields "params" = Some params ->
  get params "sender" = Normal sender ->
  get params "receiver" = Normal receiver ->
  createAction (VObj fields) = Normal (SendEmailAction sender receiver)
  /\
  (forall from to fuel context s,
      ToString sender = Normal from ->
      ToString receiver = Normal to ->
      processDecisionTree (S fuel) (VObj fields) context s =
      Some (Normal tt,
            logged s ("SendEmailAction: Sending email from " ++ from
                      ++ " to " ++ to)))
  /\
  (forall fuel context s,
      has_string_form sender && has_string_form receiver = false ->
      processDecisionTree (S fuel) (VObj fields) context s =
      Some (Normal tt,
            logged_error s "Error processing decision tree:" TypeError)).
Proof.
  intros Htype Hparams Hsender Hreceiver.
  assert (Hcreate :
    createAction (VObj fields) = Normal (SendEmailAction sender receiver)).
  { rewrite (createAction_email_fields fields Htype).
    unfold send_email_factory.
    rewrite (get_own _ _ _ Hparams). cbn [bindC].
    rewrite Hsender. cbn [bindC]. rewrite Hreceiver. reflexivity. }
  assert (Hexecute : forall fuel context s,
    execute (S fuel) (SendEmailAction sender receiver) context s =
    (s0 <- lift (ToString sender) ;;
     r <- lift (ToString receiver) ;;
     console_log ("SendEmailAction: Sending email from " ++ s0
                  ++ " to " ++ r)) s) by reflexivity.
  split; [exact Hcreate|]. split.
  - intros from to fuel context s Hfrom Hto.
    rewrite (processDecisionTree_execute _ _ _ _ _ Hcreate), Hexecute.
    rewrite Hfrom, lift_normal, Hto, lift_normal. reflexivity.
  - intros fuel context s Hnone.
    rewrite (processDecisionTree_execute _ _ _ _ _ Hcreate), Hexecute.
    apply andb_false_iff in Hnone. destruct Hnone as [Hnone|Hnone].
    + rewrite (no_string_form _ Hnone). reflexivity.
    + destruct (ToString sender) as [from|e] eqn:Hfrom.
      * rewrite lift_normal, (no_string_form _ Hnone). reflexivity.
      * rewrite (ToString_throws _ _ Hfrom). reflexivity.
Qed.

(** ** Trees whose fields have a string form never throw *)

Lemma has_string_form_text v :
  has_string_form v = true -> exists text, ToString v = Normal text.
Proof.
  unfold has_string_form. destruct (ToString v) as [text|e]; intros H.
  - exists text. reflexivity.
  - discriminate.
Qed.

Lemma has_string_form_number v :
  has_string_form v = true -> exists bound, ToNumber v = Normal bound.
Proof.
  intros H. destruct (has_string_form_text v H) as [text Htext].
  destruct v as [| |[|]|n|str|items|fields];
    try (eexists; reflexivity).
  - unfold ToNumber. rewrite Htext. eexists. reflexivity.
  - simpl in Htext. simpl. destruct (hasOwn fields "toString");
      [discriminate | eexists; reflexivity].
Qed.

Lemma printable_standard a : printable a = true -> standard a = true.
Proof.
  induction a as [phone|sender receiver|expression t f IHt IHf
                 |iterations body IH|actions IH|v] using Action_tree_ind;
    simpl; intros H; try reflexivity; try discriminate.
  - apply andb_true_iff in H. destruct H as [H Hf].
    apply andb_true_iff in H. destruct H as [_ Ht].
    rewrite (IHt Ht). destruct f as [fa|]; [|reflexivity].
    exact (IHf fa eq_refl Hf).
  - apply andb_true_iff in H. destruct H as [_ H]. exact (IH H).
  - apply forallb_forall. intros x Hx.
    rewrite Forall_forall in IH. apply (IH x Hx).
    rewrite forallb_forall in H. exact (H x Hx).
Qed.

(** The [try] block of a condition always leaves a boolean. *)
Lemma condition_try_total expression text context s :
  ToString expression = Normal text ->
  exists result s1,
    try_catch
      (e <- lift (ToString expression) ;;
       v <- call_new_Function
              ("with(context) { return (" ++ e ++ "); }") (or_empty context) ;;
       ret (ToBoolean v))
      (fun err => console_error "Error evaluating condition:" err ;; ret false)
      s
    = Some (Normal result, s1).
Proof.
  intros Htext.
  destruct (callFunction ("with(context) { return (" ++ text ++ "); }")
              (or_empty context) (world s)) as [[v|err] w'] eqn:Hcall.
  - eexists. eexists.
    exact (condition_try_returns expression text context s v w' Htext Hcall).
  - eexists. eexists.
    exact (condition_try_throws expression text context s err w' Htext Hcall).
Qed.

Lemma for_of_never_throws {A : Type} (body : A -> Exec unit) (l : list A) :
  Forall (fun x => forall s r s', body x s = Some (r, s') -> r = Normal tt) l ->
  forall s r s', for_of body l s = Some (r, s') -> r = Normal tt.
Proof.
  induction 1 as [|x rest Hx _ IH]; simpl; intros s r s' Hr.
  - inversion Hr. reflexivity.
  - unfold bind in Hr.
    destruct (body x s) as [[[[]|e] s1]|] eqn:Hbody; [| |discriminate].
    + exact (IH _ _ _ Hr).
    + discriminate (Hx _ _ _ Hbody).
Qed.

Lemma for_lt_never_throws (body : nat -> Exec unit) bound x :
  ToNumber bound = Normal x ->
  (forall i s r s', body i s = Some (r, s') -> r = Normal tt) ->
  forall fuel i s r s',
    for_lt fuel bound body i s = Some (r, s') -> r = Normal tt.
Proof.
  intros Hx Hbody. induction fuel as [|fuel IH]; intros i s r s' Hr.
  - discriminate.
  - simpl in Hr. rewrite Hx, lift_normal in Hr.
    destruct (counter_lt i x).
    + unfold bind in Hr.
      destruct (body i s) as [[[[]|e] s1]|] eqn:Hi; [| |discriminate].
      * exact (IH _ _ _ _ Hr).
      * discriminate (Hbody _ _ _ _ Hi).
    + inversion Hr. reflexivity.
Qed.

Lemma execute_never_throws (fuel : nat) :
  forall a context s r s',
    printable a = true ->
    execute fuel a context s = Some (r, s') ->
    r = Normal tt.
Proof.
  induction fuel as [|fuel IH]; intros a context s r s' Hprintable Hr.
  - discriminate.
  - destruct a as [phone|sender receiver|expression t f|iterations body|actions|v];
      simpl in Hprintable.
    + destruct (has_string_form_text _ Hprintable) as [text Htext].
      rewrite execute_sms, Htext, lift_normal in Hr.
      inversion Hr. reflexivity.
    + apply andb_true_iff in Hprintable. destruct Hprintable as [Hs Hrec].
      destruct (has_string_form_text _ Hs) as [from Hfrom].
      destruct (has_string_form_text _ Hrec) as [to Hto].
      change (execute (S fuel) (SendEmailAction sender receiver) context s) with
        ((s0 <- lift (ToString sender) ;;
          r0 <- lift (ToString receiver) ;;
          console_log ("SendEmailAction: Sending email from " ++ s0
                       ++ " to " ++ r0)) s) in Hr.
      rewrite Hfrom, lift_normal, Hto, lift_normal in Hr.
      inversion Hr. reflexivity.
    + apply andb_true_iff in Hprintable. destruct Hprintable as [H Hf].
      apply andb_true_iff in H. destruct H as [He Ht].
      destruct (has_string_form_text _ He) as [text Htext].
      destruct (condition_try_total expression text context s Htext)
        as (result & s1 & Htry).
      rewrite execute_condition in Hr.
      rewrite (bind_normal _ _ _ _ _ Htry) in Hr.
      rewrite Htext, lift_normal in Hr.
      rewrite (bind_normal _ _ _ _ _ (console_log_logged _ s1)) in Hr.
      destruct result.
      * exact (IH _ _ _ _ _ Ht Hr).
      * destruct f as [fa|].
        -- destruct (truthy fa).
           ++ exact (IH _ _ _ _ _ Hf Hr).
           ++ inversion Hr. reflexivity.
        -- inversion Hr. reflexivity.
    + apply andb_true_iff in Hprintable. destruct Hprintable as [Hi Hbody].
      destruct (has_string_form_text _ Hi) as [text Htext].
      destruct (has_string_form_number _ Hi) as [x Hx].
      rewrite execute_loop, Htext, lift_normal in Hr.
      rewrite (bind_normal _ _ _ _ _ (console_log_logged _ s)) in Hr.
      apply (for_lt_never_throws _ _ x Hx) in Hr; [exact Hr|].
      intros i s1 r1 s2 H1.
      rewrite (bind_normal _ _ _ _ _ (console_log_logged _ s1)) in H1.
      exact (IH _ _ _ _ _ Hbody H1).
    + rewrite execute_sequence in Hr.
      rewrite (bind_normal _ _ _ _ _ (console_log_logged _ s)) in Hr.
      apply for_of_never_throws in Hr; [exact Hr|].
      apply Forall_forall. intros x Hx s1 r1 s2 H1.
      rewrite forallb_forall in Hprintable.
      exact (IH _ _ _ _ _ (Hprintable x Hx) H1).
    + discriminate.
Qed.

(** X7. A tree of the five classes whose fields all have a string form (as
    they do when they have their declared types) never throws: when its
    [execute] ends, it returns.  Errors of the evaluated expressions are
    caught inside the conditions. *)
Theorem printable_tree_never_throws (fuel : nat) (a : Action)
  (context : Value) (s : State) (r : Completion unit) (s' : State) :
  printable a = true ->
  execute fuel a context s = Some (r, s') ->
  r = Normal tt.
Proof. apply execute_never_throws. Qed.

End RunFacts.

Section TerminationFacts.
Context {engine : Engine}.
Local Open Scope exec_scope.

(** ** How many times a loop calls its body *)

(** The test [i < bound] holds for the counter values below [call_count]. *)
Lemma counter_lt_call_count (bound : Number) (n i : nat) :
  call_count bound = Some n ->
  counter_lt i bound = (i <? n)%nat.
Proof.
  destruct bound as [| | |q]; simpl; intros Hn.
  - inversion Hn. reflexivity.
  - discriminate.
  - inversion Hn. reflexivity.
  - destruct (Qceiling q <=? 9007199254740992)%Z; [|discriminate].
    inversion Hn. subst. clear Hn.
    destruct (Nat.ltb_spec i (Z.to_nat (Qceiling q))) as [Hlt|Hge].
    + destruct (Qle_bool q (inject_Z (Z.of_nat i))) eqn:Hle; [|reflexivity].
      apply Qle_bool_iff in Hle. exfalso.
      apply (Qlt_not_le _ _ (Qceiling_lt q)).
      apply Qle_trans with (inject_Z (Z.of_nat i)); [exact Hle|].
      rewrite <- Zle_Qle. lia.
    + assert (Hle : Qle_bool q (inject_Z (Z.of_nat i)) = true).
      { apply Qle_bool_iff.
        apply Qle_trans with (inject_Z (Qceiling q)); [apply Qle_ceiling|].
        rewrite <- Zle_Qle. lia. }
      rewrite Hle. reflexivity.
Qed.

Lemma call_count_max (bound : Number) (n : nat) :
  call_count bound = Some n -> (N.of_nat n <= 9007199254740992)%N.
Proof.
  destruct bound as [| | |q]; simpl; intros Hn.
  - inversion Hn. lia.
  - discriminate.
  - inversion Hn. lia.
  - destruct (Z.leb_spec (Qceiling q) 9007199254740992); [|discriminate].
    inversion Hn. lia.
Qed.

Lemma loop_calls_bound iterations n :
  loop_calls iterations = Some n ->
  exists bound, ToNumber iterations = Normal bound /\ call_count bound = Some n.
Proof.
  unfold loop_calls. destruct (ToNumber iterations) as [bound|e]; intros H.
  - exists bound. split; [reflexivity | exact H].
  - discriminate.
Qed.

Lemma for_lt_loop_calls iterations n fuel body s :
  loop_calls iterations = Some n ->
  (n < fuel)%nat ->
  for_lt fuel iterations body 0 s = times n body 0 s.
Proof.
  intros Hcalls Hfuel.
  destruct (loop_calls_bound _ _ Hcalls) as (bound & Hbound & Hcount).
  apply for_lt_times with (x := bound);
    [exact Hbound | | exact (call_count_max _ _ Hcount) | exact Hfuel].
  intros j. apply counter_lt_call_count. exact Hcount.
Qed.

(** X9. A [LoopAction] with any count that has a string form and converts
    to a number of at most 2^53 logs its start line and then calls its body
    for the counter values 0, 1, 2, ... below that number, one call after
    the other, until these calls have returned or a call throws: the count
    rounded up for a positive count (three calls for 5/2), no call for a
    count that is zero, negative or [NaN], as it is when [iterations] is
    missing. *)
Theorem loop_calls_body (fuel n : nat) (iterations : Value) (text : string)
  (body : Action) (context : Value) (s : State) :
  ToString iterations = Normal text ->
  loop_calls iterations = Some n ->
  (n < fuel)%nat ->
  execute (S fuel) (LoopAction iterations body) context s =
  (console_log ("LoopAction: Starting loop for " ++ text ++ " iterations.") ;;
   times n
     (fun i =>
        console_log ("LoopAction: Iteration " ++ NumberToString (of_nat (S i))) ;;
        execute fuel body context)
     0) s.
Proof.
  intros Htext Hcalls Hfuel. rewrite execute_loop, Htext, lift_normal.
  apply bind_ext. intros [] s'.
  rewrite (for_lt_loop_calls iterations n fuel _ s' Hcalls Hfuel).
  apply times_ext. intros j s1 Hj.
  destruct (loop_calls_bound _ _ Hcalls) as (bound & _ & Hcount).
  pose proof (call_count_max _ _ Hcount) as Hmax.
  rewrite increment_below by lia. reflexivity.
Qed.

(** A body that does not throw under a bound the counter never reaches. *)
Lemma for_lt_stuck (body : nat -> Exec unit) bound x :
  ToNumber bound = Normal x ->
  (forall i, (N.of_nat i <= 9007199254740992)%N -> counter_lt i x = true) ->
  (forall i s e s', body i s <> Some (Throw e, s')) ->
  forall fuel i s,
    (N.of_nat i <= 9007199254740992)%N ->
    for_lt fuel bound body i s = None.
Proof.
  intros Hx Hlt Hbody. induction fuel as [|fuel IH]; intros i s Hi.
  - reflexivity.
  - simpl. rewrite Hx, lift_normal, (Hlt i Hi). unfold bind.
    destruct (body i s) as [[[[]|e] s']|] eqn:Hrun.
    + apply IH. apply increment_bounded. exact Hi.
    + exfalso. exact (Hbody _ _ _ _ Hrun).
    + reflexivity.
Qed.

Lemma loop_never_reaches_count (fuel : nat) (q : Q) (body : Action)
  (context : Value) (s : State) :
  inject_Z 9007199254740992 < q ->
  printable body = true ->
  execute fuel (LoopAction (VNum (Finite q)) body) context s = None.
Proof.
  intros Hq Hbody. destruct fuel as [|fuel]; [reflexivity|].
  rewrite execute_loop.
  change (ToString (VNum (Finite q))) with (Normal (NumberToString (Finite q))).
  rewrite lift_normal.
  rewrite (bind_normal _ _ _ _ _ (console_log_logged _ s)).
  apply for_lt_stuck with (x := Finite q).
  - reflexivity.
  - intros i Hi. unfold counter_lt.
    destruct (Qle_bool q (inject_Z (Z.of_nat i))) eqn:Hle; [|reflexivity].
    apply Qle_bool_iff in Hle. exfalso.
    apply (Qlt_not_le _ _ Hq).
    apply Qle_trans with (inject_Z (Z.of_nat i)); [exact Hle|].
    rewrite <- Zle_Qle. lia.
  - intros i s1 e s2 H.
    rewrite (bind_normal _ _ _ _ _ (console_log_logged _ s1)) in H.
    discriminate (execute_never_throws _ _ _ _ _ _ Hbody H).
  - lia.
Qed.

(** X18. A [LoopAction] with a finite count above 2^53 over a body whose
    fields have a string form never ends: the counter stops growing at 2^53
    and stays below the count, so no budget gives a result. *)
Theorem loop_above_counter_limit (fuel : nat) (q : Q) (body : Action)
  (context : Value) (s : State) :
  inject_Z 9007199254740992 < q ->
  printable body = true ->
  execute fuel (LoopAction (VNum (Finite q)) body) context s = None.
Proof. apply loop_never_reaches_count. Qed.

(** X10. A [LoopAction] with the count [Infinity] (the JSON number [1e999])
    over a body whose fields have a string form never ends: no budget gives
    a result. *)
Theorem loop_without_end (fuel : nat) (body : Action) (context : Value)
  (s : State) :
  printable body = true ->
  execute fuel (LoopAction (VNum PosInfinity) body) context s = None.
Proof.
  intros Hbody. destruct fuel as [|fuel]; [reflexivity|].
  rewrite execute_loop.
  change (ToString (VNum PosInfinity)) with (Normal "Infinity").
  rewrite lift_normal.
  rewrite (bind_normal _ _ _ _ _ (console_log_logged _ s)).
  apply for_lt_endless.
  intros i s1 e s2 H.
  rewrite (bind_normal _ _ _ _ _ (console_log_logged _ s1)) in H.
  discriminate (execute_never_throws _ _ _ _ _ _ Hbody H).
Qed.

(** ** Termination *)

Lemma list_max_ge (l : list nat) (x : nat) :
  In x l -> (x <= list_max l)%nat.
Proof.
  induction l as [|y l IH]; simpl; intros H.
  - contradiction.
  - destruct H as [->|H]; [lia|]. specialize (IH H). lia.
Qed.

Lemma for_of_returns {A : Type} (body : A -> Exec unit) (l : list A) :
  Forall (fun x => forall s, exists s', body x s = Some (Normal tt, s')) l ->
  forall s, exists s', for_of body l s = Some (Normal tt, s').
Proof.
  induction 1 as [|x rest Hx _ IH]; simpl; intros s.
  - exists s. reflexivity.
  - destruct (Hx s) as [s1 H1]. rewrite (bind_normal _ _ _ _ _ H1). apply IH.
Qed.

Lemma execute_returns (a : Action) :
  printable a = true ->
  finite_loops a = true ->
  forall fuel context s,
    (budget a <= fuel)%nat ->
    exists s', execute fuel a context s = Some (Normal tt, s').
Proof.
  induction a as [phone|sender receiver|expression t f IHt IHf
                 |iterations body IH|actions IH|v] using Action_tree_ind;
    cbn [printable finite_loops budget];
    intros Hprintable Hfinite fuel context s Hfuel;
    try discriminate;
    (destruct fuel as [|fuel]; [lia|]).
  - destruct (has_string_form_text _ Hprintable) as [text Htext].
    rewrite execute_sms, Htext, lift_normal. eexists. reflexivity.
  - apply andb_true_iff in Hprintable. destruct Hprintable as [Hs Hr].
    destruct (has_string_form_text _ Hs) as [from Hfrom].
    destruct (has_string_form_text _ Hr) as [to Hto].
    change (execute (S fuel) (SendEmailAction sender receiver) context s) with
      ((s0 <- lift (ToString sender) ;;
        r0 <- lift (ToString receiver) ;;
        console_log ("SendEmailAction: Sending email from " ++ s0
                     ++ " to " ++ r0)) s).
    rewrite Hfrom, lift_normal, Hto, lift_normal. eexists. reflexivity.
  - apply andb_true_iff in Hprintable. destruct Hprintable as [H Hpf].
    apply andb_true_iff in H. destruct H as [He Hpt].
    apply andb_true_iff in Hfinite. destruct Hfinite as [Hft Hff].
    destruct (has_string_form_text _ He) as [text Htext].
    destruct (condition_try_total expression text context s Htext)
      as (result & s1 & Htry).
    rewrite execute_condition, (bind_normal _ _ _ _ _ Htry).
    rewrite Htext, lift_normal.
    rewrite (bind_normal _ _ _ _ _ (console_log_logged _ s1)).
    destruct result.
    + apply IHt; [assumption | assumption | lia].
    + destruct f as [fa|]; [|eexists; reflexivity].
      destruct (truthy fa); [|eexists; reflexivity].
      apply (IHf fa eq_refl); [assumption | assumption | lia].
  - apply andb_true_iff in Hprintable. destruct Hprintable as [Hi Hpb].
    apply andb_true_iff in Hfinite. destruct Hfinite as [Hcalls Hfb].
    destruct (loop_calls iterations) as [n|] eqn:Hn; [|discriminate].
    try rewrite Hn in Hfuel.
    destruct (has_string_form_text _ Hi) as [text Htext].
    rewrite execute_loop, Htext, lift_normal.
    rewrite (bind_normal _ _ _ _ _ (console_log_logged _ s)).
    rewrite (for_lt_loop_calls iterations n fuel _ _ Hn) by lia.
    apply times_returns. intros i s1.
    rewrite (bind_normal _ _ _ _ _ (console_log_logged _ s1)).
    apply IH; [assumption | assumption | lia].
  - rewrite execute_sequence.
    rewrite (bind_normal _ _ _ _ _ (console_log_logged _ s)).
    apply for_of_returns.
    rewrite Forall_forall in IH. apply Forall_forall. intros x Hx s1.
    rewrite forallb_forall in Hprintable, Hfinite.
    apply (IH x Hx (Hprintable x Hx) (Hfinite x Hx)).
    pose proof (list_max_ge (map budget actions) (budget x)
                  (in_map budget actions x Hx)).
    lia.
Qed.

(** X8. A tree of the five classes whose fields all have a string form and
    whose loops all have an end executes to the end and returns, from every
    state and for every context: the budget computed from the tree is
    enough, and so is every larger one. *)
Theorem finite_tree_returns (a : Action) (fuel : nat) (context : Value)
  (s : State) :
  printable a = true ->
  finite_loops a = true ->
  (budget a <= fuel)%nat ->
  exists s', execute fuel a context s = Some (Normal tt, s').
Proof.
  intros Hprintable Hfinite Hfuel.
  exact (execute_returns a Hprintable Hfinite fuel context s Hfuel).
Qed.

End TerminationFacts.

Section ContextFacts.
Context {engine : Engine}.
Local Open Scope exec_scope.

(** ** Only conditions look at the context *)

Lemma for_of_ext {A : Type} (body body' : A -> Exec unit) (l : list A) :
  Forall (fun x => forall s, body x s = body' x s) l ->
  forall s, for_of body l s = for_of body' l s.
Proof.
  induction 1 as [|x rest Hx _ IH]; simpl; intros s.
  - reflexivity.
  - unfold bind. rewrite Hx.
    destruct (body' x s) as [[[[]|e] s1]|]; [apply IH | reflexivity | reflexivity].
Qed.

Lemma for_lt_ext (body body' : nat -> Exec unit) bound :
  (forall i s, body i s = body' i s) ->
  forall fuel i s, for_lt fuel bound body i s = for_lt fuel bound body' i s.
Proof.
  intros Hbody. induction fuel as [|fuel IH]; intros i s; simpl.
  - reflexivity.
  - apply bind_ext. intros n s1. destruct (counter_lt i n); [|reflexivity].
    unfold bind. rewrite Hbody.
    destruct (body' i s1) as [[[[]|e] s2]|]; [apply IH | reflexivity | reflexivity].
Qed.

Lemma execute_ignores_context (fuel : nat) :
  forall a context context' s,
    condition_free a = true ->
    execute fuel a context s = execute fuel a context' s.
Proof.
  induction fuel as [|fuel IH]; intros a context context' s Hfree.
  - reflexivity.
  - destruct a as [phone|sender receiver|expression t f|iterations body|actions|v];
      simpl in Hfree; try reflexivity; try discriminate.
    + rewrite !execute_loop. apply bind_ext. intros n s1.
      apply bind_ext. intros [] s2.
      apply for_lt_ext. intros i s3. apply bind_ext. intros [] s4.
      apply IH. exact Hfree.
    + rewrite !execute_sequence. apply bind_ext. intros [] s1.
      apply for_of_ext. apply Forall_forall. intros x Hx s2.
      apply IH. rewrite forallb_forall in Hfree. exact (Hfree x Hx).
Qed.

Lemma for_of_keeps {A : Type} (P : State -> Prop) (body : A -> Exec unit)
  (l : list A) :
  Forall (fun x => forall s r s', P s -> body x s = Some (r, s') -> P s') l ->
  forall s r s', P s -> for_of body l s = Some (r, s') -> P s'.
Proof.
  induction 1 as [|x rest Hx _ IH]; simpl; intros s r s' Hs Hr.
  - inversion Hr. subst. exact Hs.
  - unfold bind in Hr.
    destruct (body x s) as [[[[]|e] s1]|] eqn:Hbody; [| |discriminate].
    + exact (IH _ _ _ (Hx _ _ _ Hs Hbody) Hr).
    + inversion Hr. subst. exact (Hx _ _ _ Hs Hbody).
Qed.

Lemma for_lt_keeps (P : State -> Prop) (body : nat -> Exec unit) bound :
  (forall i s r s', P s -> body i s = Some (r, s') -> P s') ->
  forall fuel i s r s', P s -> for_lt fuel bound body i s = Some (r, s') -> P s'.
Proof.
  intros Hbody. induction fuel as [|fuel IH]; intros i s r s' Hs Hr.
  - discriminate.
  - simpl in Hr. unfold bind at 1 in Hr.
    destruct (ToNumber bound) as [n|e]; cbn [lift ret throw] in Hr.
    + destruct (counter_lt i n).
      * unfold bind in Hr.
        destruct (body i s) as [[[[]|e] s1]|] eqn:Hi; [| |discriminate].
        -- exact (IH _ _ _ _ (Hbody _ _ _ _ Hs Hi) Hr).
        -- inversion Hr. subst. exact (Hbody _ _ _ _ Hs Hi).
      * inversion Hr. subst. exact Hs.
    + inversion Hr. subst. exact Hs.
Qed.

Lemma execute_keeps_world (fuel : nat) :
  forall a context s r s',
    condition_free a = true ->
    execute fuel a context s = Some (r, s') ->
    world s' = world s.
Proof.
  induction fuel as [|fuel IH]; intros a context s r s' Hfree Hr.
  - discriminate.
  - destruct a as [phone|sender receiver|expression t f|iterations body|actions|v];
      simpl in Hfree; try discriminate.
    + rewrite execute_sms in Hr. unfold bind in Hr.
      destruct (ToString phone); cbn [lift ret throw] in Hr;
        inversion Hr; reflexivity.
    + change (execute (S fuel) (SendEmailAction sender receiver) context s) with
        ((s0 <- lift (ToString sender) ;;
          r0 <- lift (ToString receiver) ;;
          console_log ("SendEmailAction: Sending email from " ++ s0
                       ++ " to " ++ r0)) s) in Hr.
      unfold bind in Hr.
      destruct (ToString sender); cbn [lift ret throw] in Hr;
        [|inversion Hr; reflexivity].
      destruct (ToString receiver); cbn [lift ret throw] in Hr;
        inversion Hr; reflexivity.
    + rewrite execute_loop in Hr. unfold bind at 1 in Hr.
      destruct (ToString iterations); cbn [lift ret throw] in Hr;
        [|inversion Hr; reflexivity].
      rewrite (bind_normal _ _ _ _ _ (console_log_logged _ s)) in Hr.
      apply (for_lt_keeps (fun s1 => world s1 = world s)) in Hr;
        [exact Hr | | reflexivity].
      intros i s1 r1 s2 Hs1 H1.
      rewrite (bind_normal _ _ _ _ _ (console_log_logged _ s1)) in H1.
      rewrite (IH _ _ _ _ _ Hfree H1). exact Hs1.
    + rewrite execute_sequence in Hr.
      rewrite (bind_normal _ _ _ _ _ (console_log_logged _ s)) in Hr.
      apply (for_of_keeps (fun s1 => world s1 = world s)) in Hr;
        [exact Hr | | reflexivity].
      apply Forall_forall. intros x Hx s1 r1 s2 Hs1 H1.
      rewrite forallb_forall in Hfree.
      rewrite (IH _ _ _ _ _ (Hfree x Hx) H1). exact Hs1.
    + rewrite execute_not_an_action in Hr. inversion Hr. reflexivity.
Qed.

(** X11. A tree without a [ConditionAction] does not look at the context
    and evaluates no expression: it executes in the same way for every
    context, and what the evaluated expressions can reach is left as it
    was. *)
Theorem condition_free_ignores_context (fuel : nat) (a : Action)
  (context : Value) (s : State) :
  condition_free a = true ->
  (forall context', execute fuel a context' s = execute fuel a context s)
  /\
  (forall r s', execute fuel a context s = Some (r, s') -> world s' = world s).
Proof.
  intros Hfree. split.
  - intros context'. apply execute_ignores_context. exact Hfree.
  - intros r s'. apply execute_keeps_world. exact Hfree.
Qed.

End ContextFacts.

Section ParseFacts.
Context {engine : Engine}.
Local Open Scope completion_scope.
Local Arguments String.eqb : simpl never.

(** ** What [createAction] returns *)

Lemma proper_truthy a : proper a = true -> truthy a = true.
Proof. destruct a; simpl; intros H; try reflexivity. exact H. Qed.

Lemma mapC_proper (items : list Value) :
  Forall (fun json => forall a, createAction json = Normal a ->
                                proper a = true) items ->
  forall actions,
    mapC createAction items = Normal actions ->
    forallb proper actions = true.
Proof.
  induction 1 as [|json rest Hjson _ IH]; simpl; intros actions Hmap.
  - inversion Hmap. reflexivity.
  - destruct (createAction json) as [a|] eqn:Ha; [|discriminate].
    simpl in Hmap.
    destruct (mapC createAction rest) as [built|]; [|discriminate].
    inversion Hmap. subst. simpl.
    rewrite (Hjson a eq_refl), (IH built eq_refl). reflexivity.
Qed.

Lemma own_Forall (P : Value -> Prop) fields key v :
  Forall (fun kv => P (snd kv)) fields ->
  own fields key = Some v -> P v.
Proof.
  induction 1 as [|[k x] rest Hx _ IH]; simpl; intros Hown.
  - discriminate.
  - destruct (String.eqb k key).
    + inversion Hown. subst. exact Hx.
    + exact (IH Hown).
Qed.

Lemma get_Forall (P : Value -> Prop) fields key v :
  Forall (fun kv => P (snd kv)) fields ->
  P VUndefined ->
  get (VObj fields) key = Normal v -> P v.
Proof.
  intros Hall Hundefined. unfold get.
  destruct (own fields key) as [x|] eqn:Hown; intros H; inversion H; subst.
  - exact (own_Forall P fields key v Hall Hown).
  - exact Hundefined.
Qed.

(** Every value that [createAction] returns in place of an action is
    truthy: it is a node or the string of [Object.prototype.toString]. *)
Lemma createAction_proper_strong (json : Value) :
  (forall a, createAction json = Normal a -> proper a = true)
  /\
  (forall items, json = VArr items ->
     Forall (fun x => forall a, createAction x = Normal a -> proper a = true)
            items).
Proof.
  induction json as [| |b|n|str|items IH|fields IH] using Value_tree_ind;
    (split; [|try (intros items' H'; discriminate H')]);
    try (intros a H; discriminate H).
  - intros items' H'. inversion H'. subst.
    apply Forall_forall. intros x Hx. rewrite Forall_forall in IH.
    exact (proj1 (IH x Hx)).
  - intros a Ha.
    set (P := fun x : Value =>
      (forall a, createAction x = Normal a -> proper a = true) /\
      (forall items, x = VArr items ->
         Forall (fun y => forall a, createAction y = Normal a ->
                                    proper a = true) items)).
    assert (Hundefined : P VUndefined).
    { split; [intros a0 H0; discriminate H0 | intros items0 H0; discriminate H0]. }
    rewrite createAction_unfold in Ha. unfold createAction_body in Ha.
    change (negb (ToBoolean (VObj fields))) with false in Ha. cbv iota in Ha.
    destruct (get (VObj fields) "type") as [type|]; [|discriminate].
    cbn [bindC] in Ha.
    destruct (negb (ToBoolean type)); [discriminate|].
    destruct (ToString type) as [key|]; [|discriminate].
    cbn [bindC] in Ha.
    unfold registryGet, registry, register in Ha. simpl registered in Ha.
    destruct (String.eqb "sequence" key).
    { cbn [is_missing call] in Ha. unfold sequence_factory in Ha.
      destruct (get (VObj fields) "actions") as [actionsJson|] eqn:Hget;
        [|discriminate].
      cbn [bindC] in Ha.
      destruct actionsJson as [| | | | |items|]; try discriminate.
      destruct (mapC createAction items) as [actions|] eqn:Hmap; [|discriminate].
      inversion Ha. subst. simpl.
      apply (mapC_proper items); [|exact Hmap].
      exact (proj2 (get_Forall P fields "actions" _ IH Hundefined Hget)
               items eq_refl). }
    destruct (String.eqb "loop" key).
    { cbn [is_missing call] in Ha. unfold loop_factory in Ha.
      destruct (get (VObj fields) "params") as [params|]; [|discriminate].
      cbn [bindC] in Ha.
      destruct (get params "iterations") as [iterations|]; [|discriminate].
      cbn [bindC] in Ha.
      destruct (get (VObj fields) "action") as [actionJson|] eqn:Hget;
        [|discriminate].
      cbn [bindC] in Ha.
      destruct (createAction actionJson) as [body|] eqn:Hbody; [|discriminate].
      inversion Ha. subst. simpl.
      exact (proj1 (get_Forall P fields "action" _ IH Hundefined Hget)
               body Hbody). }
    destruct (String.eqb "condition" key).
    { cbn [is_missing call] in Ha. unfold condition_factory in Ha.
      destruct (get (VObj fields) "params") as [params|]; [|discriminate].
      cbn [bindC] in Ha.
      destruct (get params "expression") as [expression|]; [|discriminate].
      cbn [bindC] in Ha.
      destruct (get (VObj fields) "trueAction") as [trueJson|] eqn:Htrue;
        [|discriminate].
      cbn [bindC] in Ha.
      destruct (createAction trueJson) as [t|] eqn:Ht; [|discriminate].
      cbn [bindC] in Ha.
      destruct (get (VObj fields) "falseAction") as [falseJson|] eqn:Hfalse;
        [|discriminate].
      cbn [bindC] in Ha.
      pose proof (proj1 (get_Forall P fields "trueAction" _ IH Hundefined Htrue)
                    t Ht) as Hpt.
      destruct (ToBoolean falseJson).
      - destruct (createAction falseJson) as [f|] eqn:Hf; [|discriminate].
        inversion Ha. subst. simpl. rewrite Hpt.
        exact (proj1 (get_Forall P fields "falseAction" _ IH Hundefined Hfalse)
                 f Hf).
      - inversion Ha. subst. simpl. rewrite Hpt. reflexivity. }
    destruct (String.eqb "send_email" key).
    { cbn [is_missing call] in Ha. unfold send_email_factory in Ha.
      destruct (get (VObj fields) "params") as [params|]; [|discriminate].
      cbn [bindC] in Ha.
      destruct (get params "sender"); [|discriminate].
      cbn [bindC] in Ha.
      destruct (get params "receiver"); [|discriminate].
      inversion Ha. reflexivity. }
    destruct (String.eqb "send_sms" key).
    { cbn [is_missing call] in Ha. unfold send_sms_factory in Ha.
      destruct (get (VObj fields) "params") as [params|]; [|discriminate].
      cbn [bindC] in Ha.
      destruct (get params "phone"); [|discriminate].
      inversion Ha. reflexivity. }
    destruct (String.eqb key "constructor").
    { inversion Ha. reflexivity. }
    destruct (String.eqb key "toString").
    { inversion Ha. reflexivity. }
    destruct (String.eqb key "__proto__"); [discriminate|].
    destruct (existsb (String.eqb key) object_methods); discriminate.
Qed.

Lemma createAction_proper json a :
  createAction json = Normal a -> proper a = true.
Proof. exact (proj1 (createAction_proper_strong json) a). Qed.

Lemma mapC_toJSON_standard (actions : list Action) :
  Forall (fun a => proper a = true ->
                   forall json, toJSON a = Normal json -> standard a = true)
         actions ->
  forallb proper actions = true ->
  forall items, mapC toJSON actions = Normal items ->
  forallb standard actions = true.
Proof.
  induction 1 as [|a rest Ha _ IH]; simpl; intros Hproper items Hmap.
  - reflexivity.
  - apply andb_true_iff in Hproper. destruct Hproper as [Hpa Hprest].
    destruct (toJSON a) as [json|] eqn:Hjson; [|discriminate].
    simpl in Hmap.
    destruct (mapC toJSON rest) as [more|]; [|discriminate].
    rewrite (Ha Hpa json eq_refl), (IH Hprest more eq_refl). reflexivity.
Qed.

(** A tree returned by [createAction] that can be serialized holds actions
    only. *)
Lemma proper_serialized_standard a :
  proper a = true ->
  forall json, toJSON a = Normal json -> standard a = true.
Proof.
  induction a as [phone|sender receiver|expression t f IHt IHf
                 |iterations body IH|actions IH|v] using Action_tree_ind;
    simpl; intros Hproper json Hjson; try reflexivity; try discriminate.
  - apply andb_true_iff in Hproper. destruct Hproper as [Hpt Hpf].
    destruct (toJSON t) as [tj|] eqn:Htj; [|discriminate].
    rewrite (IHt Hpt tj eq_refl). simpl in Hjson.
    destruct f as [fa|]; [|reflexivity].
    rewrite (proper_truthy fa Hpf) in Hjson.
    destruct (toJSON fa) as [fj|] eqn:Hfj; [|discriminate].
    exact (IHf fa eq_refl Hpf fj Hfj).
  - destruct (toJSON body) as [bj|] eqn:Hbj; [|discriminate].
    exact (IH Hproper bj eq_refl).
  - destruct (mapC toJSON actions) as [items|] eqn:Hitems; [|discriminate].
    exact (mapC_toJSON_standard actions IH Hproper items Hitems).
Qed.

(** X12. When [createAction] builds a tree from a node and the tree can be
    serialized, building the serialization gives the same tree again: what
    the node had beyond the fields the factories read is dropped once and
    for all. *)
Theorem parse_serialize_parse (json json' : Value) (a : Action) :
  createAction json = Normal a ->
  toJSON a = Normal json' ->
  createAction json' = Normal a.
Proof.
  intros Hcreate Hjson.
  pose proof (proper_serialized_standard a (createAction_proper json a Hcreate)
                json' Hjson) as Hstandard.
  destruct (createAction_toJSON a Hstandard) as (j & Hj & Hback).
  rewrite Hjson in Hj. inversion Hj. subst. exact Hback.
Qed.

(** X13. [toJSON] loses nothing: two trees of the five classes with the
    same serialization are the same tree. *)
Theorem toJSON_injective (a b : Action) :
  standard a = true ->
  standard b = true ->
  toJSON a = toJSON b ->
  a = b.
Proof.
  intros Ha Hb Heq.
  destruct (createAction_toJSON a Ha) as (ja & Hja & Hbacka).
  destruct (createAction_toJSON b Hb) as (jb & Hjb & Hbackb).
  rewrite Heq, Hjb in Hja. inversion Hja. subst.
  rewrite Hbacka in Hbackb. inversion Hbackb. reflexivity.
Qed.

End ParseFacts.

Section EndToEndFacts.
Context {engine : Engine}.
Local Open Scope exec_scope.

(** X14. Running the serialization of a tree through the service does what
    executing the tree does: for a tree of the five classes whose fields
    have a string form, [processDecisionTree] on [toJSON] of the tree is
    [execute] on the tree, with the same console and the same result. *)
Theorem service_on_serialization (fuel : nat) (a : Action) (json : Value)
  (context : Value) (s : State) :
  printable a = true ->
  toJSON a = Normal json ->
  processDecisionTree fuel json context s = execute fuel a context s.
Proof.
  intros Hprintable Hjson.
  destruct (createAction_toJSON a (printable_standard a Hprintable))
    as (j & Hj & Hcreate).
  rewrite Hjson in Hj. inversion Hj. subst j.
  rewrite (processDecisionTree_execute _ _ _ _ _ Hcreate).
  destruct (execute fuel a context s) as [[[[]|e] s']|] eqn:Hrun;
    try reflexivity.
  discriminate (execute_never_throws _ _ _ _ _ _ Hprintable Hrun).
Qed.

(** X16. A [ConditionAction] whose expression has no string form (the node
    carried an object with an own [toString] where a string is declared):
    the error of the [try] block is caught and logged, the log line after it
    throws again, neither branch is executed, and the run ends with the
    second error in the error log. *)
Theorem condition_without_string_form (fuel : nat) (json : Value)
  (expression : Value) (t : Action) (f : option Action) (context : Value)
  (s : State) :
  createAction json = Normal (ConditionAction expression t f) ->
  has_string_form expression = false ->
  processDecisionTree (S fuel) json context s =
  Some (Normal tt,
        logged_error
          (logged_error s "Error evaluating condition:" TypeError)
          "Error processing decision tree:" TypeError).
Proof.
  intros Hcreate Hnone.
  assert (Htext : ToString expression = Throw TypeError).
  { unfold has_string_form in Hnone.
    destruct (ToString expression) as [text|e] eqn:H; [discriminate|].
    rewrite (ToString_throws _ _ H). reflexivity. }
  rewrite (processDecisionTree_execute _ _ _ _ _ Hcreate).
  rewrite (condition_unprintable_expression fuel expression t f context s Htext).
  reflexivity.
Qed.

(** ** The endpoint *)

Lemma processDecisionTree_returns fuel json context s r s' :
  processDecisionTree fuel json context s = Some (r, s') -> r = Normal tt.
Proof.
  destruct (createAction json) as [action|e] eqn:Hcreate.
  - rewrite (processDecisionTree_execute _ _ _ _ _ Hcreate).
    destruct (execute fuel action context s) as [[[[]|e] s1]|];
      intros H; inversion H; reflexivity.
  - rewrite (processDecisionTree_create_throws _ _ _ _ _ Hcreate).
    intros H; inversion H; reflexivity.
Qed.

(** X15. The endpoint [POST /process-decision-tree].  When [req.body] is
    [undefined] or [null] the handler answers with status 400 and the
    [TypeError] of the destructuring, and nothing is executed.  For every
    other body it answers [{status: "success"}] as soon as the run of
    [body.decisionTree] ends, whatever the run did: a malformed tree and an
    error during execution are logged by the service and do not reach the
    response. *)
Theorem endpoint_answers (fuel : nat) (body : Value) (s : State) :
  (body = VUndefined \/ body = VNull ->
   post_process_decision_tree fuel body s
   = Some (Normal (Error400 TypeError), s))
  /\
  (forall decisionTree context r s',
      get body "decisionTree" = Normal decisionTree ->
      get body "context" = Normal context ->
      processDecisionTree fuel decisionTree context s = Some (r, s') ->
      post_process_decision_tree fuel body s = Some (Normal Success200, s')).
Proof.
  split.
  - intros [->| ->]; reflexivity.
  - intros decisionTree context r s' Htree Hcontext Hrun.
    unfold post_process_decision_tree, try_catch.
    rewrite Htree, lift_normal, Hcontext, lift_normal.
    pose proof (processDecisionTree_returns _ _ _ _ _ _ Hrun) as Hr. subst r.
    rewrite (bind_normal _ _ _ _ _ Hrun). reflexivity.
Qed.

End EndToEndFacts.

(** * The statements on concrete inputs *)

(** ** The sample trees of the source *)

Example christmas_on_the_date :
  @processDecisionTree sample_engine 3 christmasDecisionTree
    (VObj [("date", VStr "1.1.2025")]) start =
  Some (Normal tt,
        @mkState sample_engine
          [Log ("ConditionAction: Expression " ++ quote ++ "date === '1.1.2025'"
                ++ quote ++ " evaluated to true");
           Log "SendSmsAction: Sending SMS to 1234567890"]
          1%nat).
Proof. reflexivity. Qed.

Example christmas_on_another_date :
  @processDecisionTree sample_engine 3 christmasDecisionTree
    (VObj [("date", VStr "2.1.2025")]) start =
  Some (Normal tt,
        @mkState sample_engine
          [Log ("ConditionAction: Expression " ++ quote ++ "date === '1.1.2025'"
                ++ quote ++ " evaluated to false");
           Log "SequenceAction: Executing 0 actions in sequence."]
          1%nat).
Proof. reflexivity. Qed.

Example email_and_sms :
  @processDecisionTree sample_engine 3 emailAndSmsTree VUndefined start =
  Some (Normal tt,
        @mkState sample_engine
          [Log "SequenceAction: Executing 3 actions in sequence.";
           Log "SendEmailAction: Sending email from a@example.com to b@example.com";
           Log "SendSmsAction: Sending SMS to 1234567890";
           Log "SendEmailAction: Sending email from a@example.com to c@example.com"]
          0%nat).
Proof. reflexivity. Qed.

Example unknown_type :
  @createAction sample_engine (VObj [("type", VStr "bogus")])
  = Throw (Error "Unknown action type: bogus").
Proof. reflexivity. Qed.

(** A loop without end uses up every budget. *)
Example endless_loop_with_small_budgets :
  @execute sample_engine 3
    (LoopAction (VNum PosInfinity) (SendSmsAction (VStr "1"))) VUndefined start
  = None.
Proof. reflexivity. Qed.

(** ** Instances of the theorems *)

Lemma roundtrip_witness :
  standard sample_tree = true /\
  exists json, @toJSON sample_tree = Normal json /\
    exists a', @createAction sample_engine json = Normal a' /\
               toJSON a' = Normal json.
Proof.
  split; [reflexivity|].
  apply (@roundtrip sample_engine sample_tree). reflexivity.
Defined.

Lemma condition_evaluation_error_witness :
  @ToString sample_engine (VStr "syntaxError(") = Normal "syntaxError(" /\
  @callFunction sample_engine
    ("with(context) { return (" ++ "syntaxError(" ++ "); }")
    (or_empty VUndefined) (world start) = (Throw (Thrown "SyntaxError"), 1%nat) /\
  @execute sample_engine 2
    (ConditionAction (VStr "syntaxError(") (SendSmsAction (VStr "1"))
                     (Some (SendSmsAction (VStr "2"))))
    VUndefined start =
  Some (Normal tt,
        @mkState sample_engine
          [LogError "Error evaluating condition:" (Thrown "SyntaxError");
           Log ("ConditionAction: Expression " ++ quote ++ "syntaxError("
                ++ quote ++ " evaluated to false");
           Log "SendSmsAction: Sending SMS to 2"]
          1%nat).
Proof.
  split; [reflexivity|]. split; [reflexivity|].
  exact (@condition_evaluation_error sample_engine 1 (VStr "syntaxError(")
           "syntaxError(" (SendSmsAction (VStr "1"))
           (Some (SendSmsAction (VStr "2"))) VUndefined start
           (Thrown "SyntaxError") 1%nat eq_refl eq_refl).
Defined.

Lemma condition_branch_witness :
  @ToString sample_engine (VStr "date === '1.1.2025'")
  = Normal "date === '1.1.2025'" /\
  @callFunction sample_engine
    ("with(context) { return (" ++ "date === '1.1.2025'" ++ "); }")
    (or_empty (VObj [("date", VStr "1.1.2025")])) (world start)
  = (Normal (VBool true), 1%nat) /\
  @execute sample_engine 2
    (ConditionAction (VStr "date === '1.1.2025'")
                     (SendSmsAction (VStr "1234567890"))
                     (Some (SequenceAction [])))
    (VObj [("date", VStr "1.1.2025")]) start =
  Some (Normal tt,
        @mkState sample_engine
          [Log ("ConditionAction: Expression " ++ quote ++ "date === '1.1.2025'"
                ++ quote ++ " evaluated to true");
           Log "SendSmsAction: Sending SMS to 1234567890"]
          1%nat).
Proof.
  split; [reflexivity|]. split; [reflexivity|].
  exact (@condition_branch sample_engine 1 (VStr "date === '1.1.2025'")
           "date === '1.1.2025'" (SendSmsAction (VStr "1234567890"))
           (Some (SequenceAction [])) (VObj [("date", VStr "1.1.2025")]) start
           (VBool true) 1%nat eq_refl eq_refl).
Defined.

Lemma loop_count_witness :
  inject_Z 3 == inject_Z (Z.of_nat 3) /\
  (Z.of_nat 3 <= 9007199254740992)%Z /\
  (3 < 4)%nat /\
  @execute sample_engine 5 (LoopAction (number 3) (SendSmsAction (VStr "1")))
    VUndefined start =
  Some (Normal tt,
        @mkState sample_engine
          [Log "LoopAction: Starting loop for 3 iterations.";
           Log "LoopAction: Iteration 1"; Log "SendSmsAction: Sending SMS to 1";
           Log "LoopAction: Iteration 2"; Log "SendSmsAction: Sending SMS to 1";
           Log "LoopAction: Iteration 3"; Log "SendSmsAction: Sending SMS to 1"]
          0%nat).
Proof.
  split; [reflexivity|]. split; [lia|]. split; [lia|]. unfold number.
  rewrite (@loop_count sample_engine 4 3 (inject_Z 3) (SendSmsAction (VStr "1"))
             VUndefined start); [reflexivity | reflexivity | lia | lia].
Defined.

Lemma loop_zero_or_negative_witness :
  zero_or_negative (Finite (inject_Z (-2))) /\
  @execute sample_engine 2
    (LoopAction (number (-2)) (SendSmsAction (VStr "1"))) VUndefined start =
  Some (Normal tt,
        @mkState sample_engine
          [Log "LoopAction: Starting loop for -2 iterations."] 0%nat).
Proof.
  assert (H : zero_or_negative (Finite (inject_Z (-2))))
    by (unfold zero_or_negative, Qle; simpl; lia).
  split; [exact H|].
  exact (@loop_zero_or_negative sample_engine 0 (Finite (inject_Z (-2)))
           (SendSmsAction (VStr "1")) VUndefined start H).
Defined.

Lemma sequence_in_order_until_error_witness :
  runs_in_order 1 VUndefined [SendSmsAction (VStr "1")]
    (logged start "SequenceAction: Executing 3 actions in sequence.")
    (logged (logged start "SequenceAction: Executing 3 actions in sequence.")
            "SendSmsAction: Sending SMS to 1") /\
  @execute sample_engine 1 (SendSmsAction unprintable) VUndefined
    (logged (logged start "SequenceAction: Executing 3 actions in sequence.")
            "SendSmsAction: Sending SMS to 1")
  = Some (Throw TypeError,
          logged (logged start "SequenceAction: Executing 3 actions in sequence.")
                 "SendSmsAction: Sending SMS to 1") /\
  @execute sample_engine 2 (SequenceAction sample_steps) VUndefined start
  = Some (Throw TypeError,
          @mkState sample_engine
            [Log "SequenceAction: Executing 3 actions in sequence.";
             Log "SendSmsAction: Sending SMS to 1"] 0%nat).
Proof.
  assert (Hruns :
    runs_in_order 1 VUndefined [SendSmsAction (VStr "1")]
      (logged start "SequenceAction: Executing 3 actions in sequence.")
      (logged (logged start "SequenceAction: Executing 3 actions in sequence.")
              "SendSmsAction: Sending SMS to 1"))
    by (eapply runs_step; [reflexivity | apply runs_none]).
  split; [exact Hruns|]. split; [reflexivity|].
  exact (proj2 (@sequence_in_order_until_error sample_engine 1 sample_steps
                  VUndefined start)
           [SendSmsAction (VStr "1")] (SendSmsAction unprintable)
           [SendSmsAction (VStr "3")] _ TypeError _ eq_refl Hruns eq_refl).
Defined.

Lemma processDecisionTree_logs_errors_witness :
  @createAction sample_engine (VObj []) = Throw invalid_json /\
  @processDecisionTree sample_engine 1 (VObj []) VUndefined start =
  Some (Normal tt,
        @mkState sample_engine
          [LogError "Error processing decision tree:" invalid_json] 0%nat).
Proof.
  split; [reflexivity|].
  apply (proj1 (@processDecisionTree_logs_errors sample_engine 1 (VObj [])
                  VUndefined start) invalid_json).
  reflexivity.
Defined.

Lemma missing_params_type_error_witness :
  own [("type", VStr "loop"); ("action", sms "1")] "type" = Some (VStr "loop") /\
  In "loop" ["send_sms"; "send_email"; "condition"; "loop"] /\
  own [("type", VStr "loop"); ("action", sms "1")] "params" = None /\
  @createAction sample_engine (VObj [("type", VStr "loop"); ("action", sms "1")])
  = Throw TypeError.
Proof.
  assert (Hin : In "loop" ["send_sms"; "send_email"; "condition"; "loop"])
    by (simpl; auto).
  split; [reflexivity|]. split; [exact Hin|]. split; [reflexivity|].
  exact (proj1 (@missing_params_type_error sample_engine
                  [("type", VStr "loop"); ("action", sms "1")] "loop"
                  eq_refl Hin eq_refl)).
Defined.

Lemma loop_factory_keeps_iterations_witness :
  own sample_loop_fields "type" = Some (VStr "loop") /\
  own sample_loop_fields "params" = Some (VObj [("iterations", VStr "many")]) /\
  get (VObj [("iterations", VStr "many")]) "iterations" = Normal (VStr "many") /\
  own sample_loop_fields "action" = Some (sms "1") /\
  @createAction sample_engine (sms "1") = Normal (SendSmsAction (VStr "1")) /\
  @createAction sample_engine (VObj sample_loop_fields)
  = Normal (LoopAction (VStr "many") (SendSmsAction (VStr "1"))).
Proof.
  repeat (split; [reflexivity|]).
  exact (@loop_factory_keeps_iterations sample_engine sample_loop_fields
           (VObj [("iterations", VStr "many")]) (VStr "many") (sms "1")
           (SendSmsAction (VStr "1")) eq_refl eq_refl eq_refl eq_refl eq_refl).
Defined.

(** ** Where the code departs from the specification *)

(** C2. The first step throws (its phone number cannot be converted to a
    string); the sequence throws the same error and the second step is not
    executed: its line is not on the console. *)
Lemma sequence_stops_at_first_error :
  @execute sample_engine 1 (SendSmsAction unprintable) VUndefined start
  = Some (Throw TypeError, start) /\
  @execute sample_engine 2
    (SequenceAction [SendSmsAction unprintable; SendSmsAction (VStr "2")])
    VUndefined start
  = Some (Throw TypeError,
          @mkState sample_engine
            [Log "SequenceAction: Executing 2 actions in sequence."] 0%nat).
Proof. split; reflexivity. Qed.

(** C3. A condition node whose expression is an object with an own
    [toString] is built as it is.  Its evaluation fails in the [try] block
    and the failure is logged, but the line written after the block throws
    again: [falseAction] is not executed and the error leaves [execute]. *)
Lemma condition_error_leaves_execute :
  @createAction sample_engine
    (VObj [("type", VStr "condition");
           ("params", VObj [("expression", unprintable)]);
           ("trueAction", sms "1");
           ("falseAction", sms "2")])
  = Normal (ConditionAction unprintable (SendSmsAction (VStr "1"))
              (Some (SendSmsAction (VStr "2")))) /\
  @execute sample_engine 2
    (ConditionAction unprintable (SendSmsAction (VStr "1"))
       (Some (SendSmsAction (VStr "2"))))
    VUndefined start
  = Some (Throw TypeError,
          @mkState sample_engine
            [LogError "Error evaluating condition:" TypeError] 0%nat).
Proof. split; reflexivity. Qed.

(** C4. For the node [{}] the caller of [processDecisionTree] gets what it
    gets after a successful run, a normal return without a value; the error
    is on the console only. *)
Lemma malformed_input_returns_like_success :
  @processDecisionTree sample_engine 1 (VObj []) VUndefined start
  = Some (Normal tt,
          @mkState sample_engine
            [LogError "Error processing decision tree:"
                      (Error "Invalid JSON: missing type property.")] 0%nat) /\
  @processDecisionTree sample_engine 1 (sms "1234567890") VUndefined start
  = Some (Normal tt,
          @mkState sample_engine
            [Log "SendSmsAction: Sending SMS to 1234567890"] 0%nat).
Proof. split; reflexivity. Qed.

(** C6. For [{type: "send_sms"}] the error of [createAction] is a
    [TypeError], not the error of the guard, and the run returns normally. *)
Lemma missing_params_not_reported :
  @createAction sample_engine (VObj [("type", VStr "send_sms")])
  = Throw TypeError /\
  @createAction sample_engine (VObj [("type", VStr "send_sms")])
  <> Throw invalid_json /\
  @processDecisionTree sample_engine 1 (VObj [("type", VStr "send_sms")])
    VUndefined start
  = Some (Normal tt,
          @mkState sample_engine
            [LogError "Error processing decision tree:" TypeError] 0%nat).
Proof. split; [reflexivity|]. split; [discriminate|reflexivity]. Qed.

(** C7. With the count 3 and a body that throws, the body is called once:
    the error ends the loop after the line of the first iteration.  With the
    count 2^53 + 2 the counter stops at 2^53 and the loop has no end: no
    budget gives a result. *)
Lemma loop_stops_at_first_error :
  @execute sample_engine 5
    (LoopAction (number 3) (SendSmsAction unprintable)) VUndefined start
  = Some (Throw TypeError,
          @mkState sample_engine
            [Log "LoopAction: Starting loop for 3 iterations.";
             Log "LoopAction: Iteration 1"] 0%nat) /\
  (forall fuel,
      @execute sample_engine fuel
        (LoopAction (number 9007199254740994) (SendSmsAction (VStr "1")))
        VUndefined start
      = None).
Proof.
  split; [reflexivity|].
  intros fuel. apply loop_never_reaches_count; [|reflexivity].
  rewrite <- Zlt_Qlt. lia.
Qed.

(** C9. The loop factory builds a [LoopAction] with the count -1, and one
    with the count 5/2. *)
Lemma loop_factory_accepts_any_count :
  @createAction sample_engine (loop_node (number (-1)) (sms "1"))
  = Normal (LoopAction (number (-1)) (SendSmsAction (VStr "1"))) /\
  @createAction sample_engine (loop_node (VNum (Finite (5 # 2))) (sms "1"))
  = Normal (LoopAction (VNum (Finite (5 # 2))) (SendSmsAction (VStr "1"))).
Proof. split; reflexivity. Qed.

(** ** Instances of the further properties *)


Lemma sequence_node_witness :
  own [("type", VStr "sequence");
       ("actions", VArr [sms "1"; VObj []; sms "3"])] "type"
  = Some (VStr "sequence") /\
  Forall2 (fun json a => @createAction sample_engine json = Normal a)
    [sms "1"] [SendSmsAction (VStr "1")] /\
  @createAction sample_engine (VObj []) = Throw invalid_json /\
  @createAction sample_engine
    (VObj [("type", VStr "sequence");
           ("actions", VArr [sms "1"; VObj []; sms "3"])])
  = Throw invalid_json.
Proof.
  assert (Hbuilt :
    Forall2 (fun json a => @createAction sample_engine json = Normal a)
      [sms "1"] [SendSmsAction (VStr "1")])
    by (constructor; [reflexivity | constructor]).
  split; [reflexivity|]. split; [exact Hbuilt|]. split; [reflexivity|].
  exact (proj2 (proj2 (@sequence_node sample_engine
                         [("type", VStr "sequence");
                          ("actions", VArr [sms "1"; VObj []; sms "3"])]
                         eq_refl))
           [sms "1"] (VObj []) [sms "3"] [SendSmsAction (VStr "1")]
           invalid_json eq_refl Hbuilt eq_refl).
Defined.

Lemma condition_node_witness :
  own [("type", VStr "condition");
       ("params", VObj [("expression", VStr "true")]);
       ("falseAction", sms "2")] "type" = Some (VStr "condition") /\
  own [("type", VStr "condition");
       ("params", VObj [("expression", VStr "true")]);
       ("falseAction", sms "2")] "params"
  = Some (VObj [("expression", VStr "true")]) /\
  get (VObj [("expression", VStr "true")]) "expression" = Normal (VStr "true") /\
  own [("type", VStr "condition");
       ("params", VObj [("expression", VStr "true")]);
       ("falseAction", sms "2")] "trueAction" = None /\
  @createAction sample_engine
    (VObj [("type", VStr "condition");
           ("params", VObj [("expression", VStr "true")]);
           ("falseAction", sms "2")])
  = Throw invalid_json.
Proof.
  repeat (split; [reflexivity|]).
  exact (proj1 (@condition_node sample_engine
                  [("type", VStr "condition");
                   ("params", VObj [("expression", VStr "true")]);
                   ("falseAction", sms "2")]
                  (VObj [("expression", VStr "true")]) (VStr "true")
                  eq_refl eq_refl eq_refl)
           eq_refl).
Defined.

Lemma loop_node_child_witness :
  own [("type", VStr "loop"); ("params", VObj [("iterations", number 3)])]
      "type" = Some (VStr "loop") /\
  own [("type", VStr "loop"); ("params", VObj [("iterations", number 3)])]
      "params" = Some (VObj [("iterations", number 3)]) /\
  VObj [("iterations", number 3)] <> VUndefined /\
  VObj [("iterations", number 3)] <> VNull /\
  own [("type", VStr "loop"); ("params", VObj [("iterations", number 3)])]
      "action" = None /\
  @createAction sample_engine
    (VObj [("type", VStr "loop"); ("params", VObj [("iterations", number 3)])])
  = Throw invalid_json.
Proof.
  assert (H1 : VObj [("iterations", number 3)] <> VUndefined)
    by (intros H; discriminate H).
  assert (H2 : VObj [("iterations", number 3)] <> VNull)
    by (intros H; discriminate H).
  split; [reflexivity|]. split; [reflexivity|]. split; [exact H1|].
  split; [exact H2|]. split; [reflexivity|].
  exact (proj1 (@loop_node_child sample_engine
                  [("type", VStr "loop");
                   ("params", VObj [("iterations", number 3)])]
                  (VObj [("iterations", number 3)]) eq_refl eq_refl H1 H2)
           eq_refl).
Defined.

Lemma send_sms_node_run_witness :
  own [("type", VStr "send_sms"); ("params", VObj [])] "type"
  = Some (VStr "send_sms") /\
  own [("type", VStr "send_sms"); ("params", VObj [])] "params"
  = Some (VObj []) /\
  get (VObj []) "phone" = Normal VUndefined /\
  @ToString sample_engine VUndefined = Normal "undefined" /\
  @processDecisionTree sample_engine 1
    (VObj [("type", VStr "send_sms"); ("params", VObj [])]) VUndefined start
  = Some (Normal tt,
          @mkState sample_engine
            [Log "SendSmsAction: Sending SMS to undefined"] 0%nat).
Proof.
  repeat (split; [reflexivity|]).
  exact (proj1 (proj2 (@send_sms_node_run sample_engine
                         [("type", VStr "send_sms"); ("params", VObj [])]
                         (VObj []) VUndefined eq_refl eq_refl eq_refl))
           "undefined" 0%nat VUndefined start eq_refl).
Defined.

Lemma send_email_node_run_witness :
  own [("type", VStr "send_email"); ("params", VObj [("sender", VStr "a")])]
      "type" = Some (VStr "send_email") /\
  own [("type", VStr "send_email"); ("params", VObj [("sender", VStr "a")])]
      "params" = Some (VObj [("sender", VStr "a")]) /\
  get (VObj [("sender", VStr "a")]) "sender" = Normal (VStr "a") /\
  get (VObj [("sender", VStr "a")]) "receiver" = Normal VUndefined /\
  @ToString sample_engine (VStr "a") = Normal "a" /\
  @ToString sample_engine VUndefined = Normal "undefined" /\
  @processDecisionTree sample_engine 1
    (VObj [("type", VStr "send_email"); ("params", VObj [("sender", VStr "a")])])
    VUndefined start
  = Some (Normal tt,
          @mkState sample_engine
            [Log "SendEmailAction: Sending email from a to undefined"] 0%nat).
Proof.
  repeat (split; [reflexivity|]).
  exact (proj1 (proj2 (@send_email_node_run sample_engine
                         [("type", VStr "send_email");
                          ("params", VObj [("sender", VStr "a")])]
                         (VObj [("sender", VStr "a")]) (VStr "a") VUndefined
                         eq_refl eq_refl eq_refl eq_refl))
           "a" "undefined" 0%nat VUndefined start eq_refl eq_refl).
Defined.

Lemma printable_tree_never_throws_witness :
  @printable sample_engine sample_tree = true /\
  @execute sample_engine 3 sample_tree VUndefined start
  = Some (Normal tt,
          @mkState sample_engine
            [Log ("ConditionAction: Expression " ++ quote
                  ++ "date === '1.1.2025'" ++ quote ++ " evaluated to false");
             Log ("ConditionAction: Expression " ++ quote ++ "false" ++ quote
                  ++ " evaluated to false")]
            2%nat) /\
  (Normal tt : Completion unit) = Normal tt.
Proof.
  split; [reflexivity|]. split; [reflexivity|].
  exact (@printable_tree_never_throws sample_engine 3 sample_tree
           VUndefined start (Normal tt) _ eq_refl eq_refl).
Defined.

Lemma finite_tree_returns_witness :
  @printable sample_engine sample_tree = true /\
  @finite_loops sample_engine sample_tree = true /\
  (@budget sample_engine sample_tree <= 5)%nat /\
  exists s',
    @execute sample_engine 5 sample_tree (VObj [("date", VStr "1.1.2025")]) start
    = Some (Normal tt, s').
Proof.
  assert (Hbudget : (@budget sample_engine sample_tree <= 5)%nat)
    by (vm_compute; lia).
  split; [reflexivity|]. split; [reflexivity|]. split; [exact Hbudget|].
  exact (@finite_tree_returns sample_engine sample_tree 5
           (VObj [("date", VStr "1.1.2025")]) start eq_refl eq_refl Hbudget).
Defined.

Lemma loop_calls_body_witness :
  @ToString sample_engine (VNum (Finite (5 # 2))) = Normal "2.5" /\
  @loop_calls sample_engine (VNum (Finite (5 # 2))) = Some 3%nat /\
  (3 < 4)%nat /\
  @execute sample_engine 5
    (LoopAction (VNum (Finite (5 # 2))) (SendSmsAction (VStr "1")))
    VUndefined start =
  Some (Normal tt,
        @mkState sample_engine
          [Log "LoopAction: Starting loop for 2.5 iterations.";
           Log "LoopAction: Iteration 1"; Log "SendSmsAction: Sending SMS to 1";
           Log "LoopAction: Iteration 2"; Log "SendSmsAction: Sending SMS to 1";
           Log "LoopAction: Iteration 3"; Log "SendSmsAction: Sending SMS to 1"]
          0%nat).
Proof.
  split; [reflexivity|]. split; [reflexivity|]. split; [lia|].
  rewrite (@loop_calls_body sample_engine 4 3 (VNum (Finite (5 # 2)))
             "2.5" (SendSmsAction (VStr "1")) VUndefined start);
    [reflexivity | reflexivity | reflexivity | lia].
Defined.

Lemma loop_without_end_witness :
  @printable sample_engine (SendSmsAction (VStr "1")) = true /\
  @execute sample_engine 1000
    (LoopAction (VNum PosInfinity) (SendSmsAction (VStr "1"))) VUndefined start
  = None.
Proof.
  split; [reflexivity|].
  exact (@loop_without_end sample_engine 1000 (SendSmsAction (VStr "1"))
           VUndefined start eq_refl).
Defined.

Lemma condition_free_ignores_context_witness :
  condition_free (LoopAction (number 2) (SendSmsAction (VStr "1"))) = true /\
  @execute sample_engine 4 (LoopAction (number 2) (SendSmsAction (VStr "1")))
    (VObj [("date", VStr "1.1.2025")]) start
  = @execute sample_engine 4 (LoopAction (number 2) (SendSmsAction (VStr "1")))
      VUndefined start.
Proof.
  split; [reflexivity|].
  exact (proj1 (@condition_free_ignores_context sample_engine 4
                  (LoopAction (number 2) (SendSmsAction (VStr "1")))
                  VUndefined start eq_refl)
           (VObj [("date", VStr "1.1.2025")])).
Defined.

Lemma parse_serialize_parse_witness :
  @createAction sample_engine
    (VObj [("note", VStr "draft"); ("type", VArr [VStr "send_sms"]);
           ("params", VObj [("phone", VStr "1"); ("carrier", VStr "x")])])
  = Normal (SendSmsAction (VStr "1")) /\
  toJSON (SendSmsAction (VStr "1")) = Normal (sms "1") /\
  @createAction sample_engine (sms "1") = Normal (SendSmsAction (VStr "1")).
Proof.
  split; [reflexivity|]. split; [reflexivity|].
  exact (@parse_serialize_parse sample_engine
           (VObj [("note", VStr "draft"); ("type", VArr [VStr "send_sms"]);
                  ("params", VObj [("phone", VStr "1"); ("carrier", VStr "x")])])
           (sms "1") (SendSmsAction (VStr "1")) eq_refl eq_refl).
Defined.

Lemma toJSON_injective_witness :
  standard sample_tree = true /\
  toJSON sample_tree = toJSON sample_tree /\
  sample_tree = sample_tree.
Proof.
  split; [reflexivity|]. split; [reflexivity|].
  exact (@toJSON_injective sample_engine sample_tree sample_tree
           eq_refl eq_refl eq_refl).
Defined.

Lemma service_on_serialization_witness :
  @printable sample_engine
    (SequenceAction [SendSmsAction (VStr "1"); SendSmsAction (VStr "3")]) = true /\
  toJSON (SequenceAction [SendSmsAction (VStr "1"); SendSmsAction (VStr "3")])
  = Normal (VObj [("type", VStr "sequence");
                  ("actions", VArr [sms "1"; sms "3"])]) /\
  @processDecisionTree sample_engine 3
    (VObj [("type", VStr "sequence"); ("actions", VArr [sms "1"; sms "3"])])
    VUndefined start
  = @execute sample_engine 3
      (SequenceAction [SendSmsAction (VStr "1"); SendSmsAction (VStr "3")])
      VUndefined start.
Proof.
  split; [reflexivity|]. split; [reflexivity|].
  exact (@service_on_serialization sample_engine 3
           (SequenceAction [SendSmsAction (VStr "1"); SendSmsAction (VStr "3")])
           (VObj [("type", VStr "sequence");
                  ("actions", VArr [sms "1"; sms "3"])])
           VUndefined start eq_refl eq_refl).
Defined.

Lemma endpoint_answers_witness :
  get (VObj [("decisionTree", VObj [])]) "decisionTree" = Normal (VObj []) /\
  get (VObj [("decisionTree", VObj [])]) "context" = Normal VUndefined /\
  @processDecisionTree sample_engine 1 (VObj []) VUndefined start
  = Some (Normal tt,
          logged_error start "Error processing decision tree:" invalid_json) /\
  @post_process_decision_tree sample_engine 1
    (VObj [("decisionTree", VObj [])]) start
  = Some (Normal Success200,
          logged_error start "Error processing decision tree:" invalid_json).
Proof.
  repeat (split; [reflexivity|]).
  exact (proj2 (@endpoint_answers sample_engine 1
                  (VObj [("decisionTree", VObj [])]) start)
           (VObj []) VUndefined (Normal tt) _ eq_refl eq_refl eq_refl).
Defined.

Lemma condition_without_string_form_witness :
  @createAction sample_engine
    (VObj [("type", VStr "condition");
           ("params", VObj [("expression", unprintable)]);
           ("trueAction", sms "1")])
  = Normal (ConditionAction unprintable (SendSmsAction (VStr "1")) None) /\
  @has_string_form sample_engine unprintable = false /\
  @processDecisionTree sample_engine 2
    (VObj [("type", VStr "condition");
           ("params", VObj [("expression", unprintable)]);
           ("trueAction", sms "1")])
    VUndefined start
  = Some (Normal tt,
          @mkState sample_engine
            [LogError "Error evaluating condition:" TypeError;
             LogError "Error processing decision tree:" TypeError] 0%nat).
Proof.
  split; [reflexivity|]. split; [reflexivity|].
  exact (@condition_without_string_form sample_engine 1
           (VObj [("type", VStr "condition");
                  ("params", VObj [("expression", unprintable)]);
                  ("trueAction", sms "1")])
           unprintable (SendSmsAction (VStr "1")) None VUndefined start
           eq_refl eq_refl).
Defined.

Lemma unknown_type_rejected_witness :
  own [("type", VStr "bogus")] "type" = Some (VStr "bogus") /\
  "bogus" <> EmptyString /\
  ~ In "bogus" ["sequence"; "loop"; "condition"; "send_email"; "send_sms"] /\
  ~ In "bogus" ("constructor" :: "toString" :: "__proto__" :: object_methods) /\
  @createAction sample_engine (VObj [("type", VStr "bogus")])
  = Throw (Error "Unknown action type: bogus").
Proof.
  assert (H1 : "bogus" <> EmptyString) by (intros H; discriminate H).
  assert (H2 : ~ In "bogus"
                 ["sequence"; "loop"; "condition"; "send_email"; "send_sms"]).
  { simpl. intros H.
    repeat (destruct H as [H|H]; [discriminate H|]). exact H. }
  assert (H3 : ~ In "bogus"
                 ("constructor" :: "toString" :: "__proto__" :: object_methods)).
  { simpl. intros H.
    repeat (destruct H as [H|H]; [discriminate H|]). exact H. }
  split; [reflexivity|]. split; [exact H1|]. split; [exact H2|].
  split; [exact H3|].
  exact (@unknown_type_rejected sample_engine [("type", VStr "bogus")] "bogus"
           eq_refl H1 H2 H3).
Defined.

Lemma loop_above_counter_limit_witness :
  inject_Z 9007199254740992 < inject_Z 9007199254740994 /\
  @printable sample_engine (SendSmsAction (VStr "1")) = true /\
  @execute sample_engine 1000
    (LoopAction (VNum (Finite (inject_Z 9007199254740994)))
       (SendSmsAction (VStr "1")))
    VUndefined start
  = None.
Proof.
  assert (H : inject_Z 9007199254740992 < inject_Z 9007199254740994)
    by (rewrite <- Zlt_Qlt; lia).
  split; [exact H|]. split; [reflexivity|].
  exact (@loop_above_counter_limit sample_engine 1000
           (inject_Z 9007199254740994) (SendSmsAction (VStr "1"))
           VUndefined start H eq_refl).
Defined.
